(** * Streaming sketches of letterboxd-stream-analysis

    A shallow embedding of the three sketch classes of the notebooks
    [count_distinct.ipynb] and [bloom_filter.ipynb]:

    - [FlajoletMartinSimple]   one running maximum of tail lengths;
    - [FlajoletMartinMultiple] a matrix of running maxima, aggregated by
      median-then-mean over IEEE binary64 numbers;
    - [BloomFilter]            a bit array probed through [hash_count]
      seeded hashes.

    Python integers are [Z], lengths and tail lengths (results of [len])
    are [nat], Python floats are the binary64 instance of the Standard
    Library's [spec_float], strings are [string], lists are [list].
    Exceptions are the [Raise] branch of [outcome]; methods that mutate
    [self] and may raise return the outcome together with the state they
    leave behind.  The hash functions ([hashlib.sha256], [mmh3.hash128],
    [mmh3.hash64]) and the draws of [random.randint] are section variables.

    The drivers of the notebooks ([process_csv], [init_filter],
    [test_filter], [count_fp]) and the parts in which the earlier revisions
    differ follow the classes: a CSV file is the list of its rows, the draws
    of [random.random] are a section variable. *)

From Stdlib Require Import ZArith List Lia Bool Ascii String Permutation Sorted.
From Stdlib Require Import DecimalString DecimalZ.
From Stdlib Require Import Floats.SpecFloat.
From stdpp Require Import base list sorting.
Import ListNotations.

Set Default Proof Using "Type".

(** Order facts about sketch states, for [eauto with sketch]. *)
Create HintDb sketch.

Local Open Scope Z_scope.

(** * The fragment of the Python runtime the notebooks rely on *)

Module Py.

(** ** Exceptions *)

Inductive pyerr : Set :=
| TypeError
| ValueError
| IndexError
| ZeroDivisionError
| OverflowError.

Inductive outcome (A : Type) : Type :=
| Ok (a : A)
| Raise (e : pyerr).

Arguments Ok {A} a.
Arguments Raise {A} e.

Definition bind {A B : Type} (x : outcome A) (k : A -> outcome B) : outcome B :=
  match x with
  | Ok a => k a
  | Raise e => Raise e
  end.

Notation "'let*' x ':=' c1 'in' c2" := (bind c1 (fun x => c2))
  (at level 10, x name, c1 at level 100, c2 at level 200).

(** [[f(x) for x in l]] with a body that may raise: left to right, the
    first exception wins. *)
Fixpoint comprehension {A B : Type} (f : A -> outcome B) (l : list A)
  : outcome (list B) :=
  match l with
  | [] => Ok []
  | x :: l' =>
      let* y := f x in
      let* ys := comprehension f l' in
      Ok (y :: ys)
  end.

(** ** Methods that mutate [self]

    A method that updates fields and may raise is a function from the state
    before the call to the outcome and the state after it: an exception
    leaves the updates made so far in place. *)

Definition method (S A : Type) : Type := S -> outcome A * S.

Definition ret {S A : Type} (a : A) : method S A := fun s => (Ok a, s).

Definition seq_bind {S A B : Type} (m : method S A) (k : A -> method S B)
  : method S B :=
  fun s =>
    match m s with
    | (Ok a, s') => k a s'
    | (Raise e, s') => (Raise e, s')
    end.

Notation "'do*' x ':=' c1 'in' c2" := (seq_bind c1 (fun x => c2))
  (at level 10, x name, c1 at level 100, c2 at level 200).

(** [for x in l: body(x)] *)
Fixpoint for_each {S A : Type} (l : list A) (body : A -> method S unit)
  : method S unit :=
  match l with
  | [] => ret tt
  | x :: l' => do* _u := body x in for_each l' body
  end.

(** ** Sequences *)

(** [range(n)]: empty when [n <= 0]. *)
Definition range (n : Z) : list Z := Z.of_nat <$> seq 0 (Z.to_nat n).

(** [len(l)] as a Python integer. *)
Definition len {A : Type} (l : list A) : Z := Z.of_nat (length l).

(** Index normalisation of [l[i]]: a negative index counts from the end,
    what is still out of range raises [IndexError]. *)
Definition norm_index (n : nat) (i : Z) : outcome nat :=
  let j := if i <? 0 then i + Z.of_nat n else i in
  if (0 <=? j) && (j <? Z.of_nat n) then Ok (Z.to_nat j) else Raise IndexError.

Definition getitem {A : Type} (l : list A) (i : Z) : outcome A :=
  let* j := norm_index (length l) i in
  match l !! j with
  | Some x => Ok x
  | None => Raise IndexError
  end.

Definition setitem {A : Type} (l : list A) (i : Z) (x : A) : outcome (list A) :=
  let* j := norm_index (length l) i in
  Ok (<[j := x]> l).

(** ** Strings: [bin], slicing from an offset, [rstrip] *)

Fixpoint bin_pos (p : positive) : string :=
  match p with
  | xH => "1"
  | xO q => bin_pos q ++ "0"
  | xI q => bin_pos q ++ "1"
  end%string.

(** [bin(z)]: sign, the prefix [0b], the binary digits, most significant
    first; [bin(0)] is ["0b0"]. *)
Definition bin (z : Z) : string :=
  match z with
  | Z0 => "0b0"
  | Zpos p => "0b" ++ bin_pos p
  | Zneg p => "-0b" ++ bin_pos p
  end%string.

(** [s[n:]] *)
Fixpoint slice_from (n : nat) (s : string) : string :=
  match n, s with
  | O, _ => s
  | S _, EmptyString => EmptyString
  | S n', String _ s' => slice_from n' s'
  end.

Fixpoint char_in (c : ascii) (chars : string) : bool :=
  match chars with
  | EmptyString => false
  | String d chars' => Ascii.eqb c d || char_in c chars'
  end.

(** [s.rstrip(chars)]: drop the longest suffix made of characters of
    [chars]. *)
Fixpoint rstrip (chars : string) (s : string) : string :=
  match s with
  | EmptyString => EmptyString
  | String a s' =>
      match rstrip chars s' with
      | EmptyString => if char_in a chars then EmptyString else String a EmptyString
      | r => String a r
      end
  end.

(** ** Floats: IEEE 754 binary64, round to nearest even *)

Definition float : Set := spec_float.

Definition prec : Z := 53.
Definition emax : Z := 1024.

Definition fadd : float -> float -> float := SFadd prec emax.
Definition fdiv : float -> float -> float := SFdiv prec emax.

(** [x < y] on floats, the only comparison [sorted] uses. *)
Definition flt : float -> float -> bool := SFltb.

(** Conversion of an integer operand to float ([PyLong_AsDouble]):
    correctly rounded, [OverflowError] when the integer is too large. *)
Definition float_of_int (z : Z) : outcome float :=
  match binary_normalize prec emax z 0 false with
  | S754_infinity _ => Raise OverflowError
  | f => Ok f
  end.

Definition is_zero (f : float) : bool :=
  match f with
  | S754_zero _ => true
  | _ => false
  end.

(** [x / y] on two floats. *)
Definition truediv (x y : float) : outcome float :=
  if is_zero y then Raise ZeroDivisionError else Ok (fdiv x y).

(** [n / y] with an integer numerator and a float denominator. *)
Definition int_truediv_float (n : Z) (y : float) : outcome float :=
  let* x := float_of_int n in truediv x y.

(** [x / n] with a float numerator and an integer denominator. *)
Definition float_truediv_int (x : float) (n : Z) : outcome float :=
  let* y := float_of_int n in truediv x y.

(** [int(x)]: truncation toward zero; [ValueError] on NaN,
    [OverflowError] on an infinity. *)
Definition int_of_float (x : float) : outcome Z :=
  match x with
  | S754_zero _ => Ok 0
  | S754_nan => Raise ValueError
  | S754_infinity _ => Raise OverflowError
  | S754_finite s m e =>
      let a := if 0 <=? e then Z.pos m * 2 ^ e else Z.pos m / 2 ^ (- e) in
      Ok (if s then - a else a)
  end.

(** [sorted(l)] on floats: a stable sort that compares with [<] only.
    Insertion from the right keeps an element in front of those it does
    not exceed, which is the stable order. *)
Fixpoint insert_sorted (x : float) (l : list float) : list float :=
  match l with
  | [] => [x]
  | y :: l' => if flt y x then y :: insert_sorted x l' else x :: y :: l'
  end.

Definition sorted (l : list float) : list float :=
  fold_right insert_sorted [] l.

(** [sum(l)] of a list of floats as CPython 3.11 computes it: the integer
    start value 0 becomes [0.0] at the first float, then plain left-to-right
    additions.  ([sum([])] is the integer 0; the only caller divides it by
    [len([]) = 0], see [FlajoletMartinMultiple.estimate_cardinality].) *)
Definition sum (l : list float) : float :=
  fold_left fadd l (S754_zero false).

(** ** The tail length shared by both Flajolet-Martin classes

    [binary_hash = bin(hash_value)[2:]], then
    [len(binary_hash) - len(binary_hash.rstrip('0'))]. *)
Definition tail_length (hash_value : Z) : nat :=
  let binary_hash := slice_from 2 (bin hash_value) in
  (String.length binary_hash - String.length (rstrip "0" binary_hash))%nat.

End Py.

Import Py.

(** * Global variables of [count_distinct.ipynb] *)

Module Globals.

(** [phi = 0.77351]: the binary64 number nearest to the decimal literal,
    [0x1.8c0980b242071p-1]. *)
Definition phi : float := S754_finite false 6967158695534705 (-53).

End Globals.

(** * FlajoletMartinSimple *)

Module FlajoletMartinSimple.

Section WithHash.

(** [int(hashlib.sha256(value.encode('utf8')).hexdigest(), 16)] *)
Variable sha256 : string -> Z.

Record t : Set := { max_tail_length : nat }.

Definition __init__ : t := {| max_tail_length := 0 |}.

Definition _hash (value : string) : Z := sha256 value.

Definition _tail_length (hash_value : Z) : nat := tail_length hash_value.

Definition process (self : t) (value : string) : t :=
  let hash_value := _hash value in
  let tail_length := _tail_length hash_value in
  {| max_tail_length := Nat.max (max_tail_length self) tail_length |}.

Definition estimate_cardinality (self : t) : Z :=
  2 ^ Z.of_nat (max_tail_length self).

(** A call of [fm.estimate_cardinality] with positional arguments [args]:
    the method is declared with [self] as its only parameter, so a call
    that passes anything more raises [TypeError]. *)
Definition call_estimate_cardinality (self : t) (args : list bool) : outcome Z :=
  match args with
  | [] => Ok (estimate_cardinality self)
  | _ :: _ => Raise TypeError
  end.

(** The stream driver of the notebook with [sample_rate = 1.0]: every row
    is processed, in order. *)
Definition process_all (fm : t) (stream : list string) : t :=
  fold_left process stream fm.

End WithHash.

(** The correction of the notebook's driver cell, applied to the value
    read back from the sketch: [cardinality = int(cardinality / phi)]. *)
Definition corrected (cardinality : Z) : outcome Z :=
  let* x := int_truediv_float cardinality Globals.phi in
  int_of_float x.

End FlajoletMartinSimple.


(** * FlajoletMartinMultiple *)

Module FlajoletMartinMultiple.

Section WithHash.

(** [mmh3.hash128(value, seed)], an unsigned 128-bit integer.  (An earlier
    revision of the notebook hashes the string [f"{seed}-{value}"] with
    SHA-256 instead; nothing below depends on which of the two is used.) *)
Variable mmh3_hash128 : string -> Z -> Z.

(** The successive results of [random.randint(0, 2**32 - 1)]. *)
Variable randint : nat -> Z.

Record t : Set := {
  num_groups : Z;
  hashes_per_group : Z;
  num_hashes : Z;
  max_tail_length : list (list nat);
  seeds : list Z;
  phi : float
}.

Definition set_max_tail_length (self : t) (m : list (list nat)) : t :=
  {| num_groups := num_groups self;
     hashes_per_group := hashes_per_group self;
     num_hashes := num_hashes self;
     max_tail_length := m;
     seeds := seeds self;
     phi := phi self |}.

Definition __init__ (num_groups hashes_per_group : Z) : t :=
  let num_hashes := num_groups * hashes_per_group in
  {| num_groups := num_groups;
     hashes_per_group := hashes_per_group;
     num_hashes := num_hashes;
     max_tail_length :=
       (fun _ => replicate (Z.to_nat hashes_per_group) 0%nat) <$> range num_groups;
     seeds := randint <$> seq 0 (Z.to_nat num_hashes);
     phi := Globals.phi |}.

Definition _hash (value : string) (seed : Z) : Z := mmh3_hash128 value seed.

Definition _tail_length (hash_value : Z) : nat := tail_length hash_value.

(** The body of the inner loop of [process]. *)
Definition process_cell (value : string) (group i : Z) : method t unit :=
  fun self =>
    let index := group * hashes_per_group self + i in
    let r :=
      let* seed := getitem (seeds self) index in
      let hash_value := _hash value seed in
      let trailing_zeros := _tail_length hash_value in
      let* row := getitem (max_tail_length self) group in
      let* old := getitem row i in
      let* row' := setitem row i (Nat.max old trailing_zeros) in
      setitem (max_tail_length self) group row' in
    match r with
    | Ok m => (Ok tt, set_max_tail_length self m)
    | Raise e => (Raise e, self)
    end.

Definition process (value : string) : method t unit :=
  fun self =>
    for_each (range (num_groups self)) (fun group =>
      fun self' =>
        for_each (range (hashes_per_group self')) (fun i =>
          process_cell value group i) self') self.

(** [sorted([2 ** r / self.phi for r in group])[len(sorted_array) // 2]] *)
Definition group_median (self : t) (group : list nat) : outcome float :=
  let* estimates :=
    comprehension (fun r => int_truediv_float (2 ^ Z.of_nat r) (phi self)) group in
  let sorted_array := sorted estimates in
  getitem sorted_array (len sorted_array / 2).

Definition group_medians (self : t) : outcome (list float) :=
  comprehension (group_median self) (max_tail_length self).

(** The two [print] calls of the method write to the notebook's output and
    are left out. *)
Definition estimate_cardinality (self : t) : outcome Z :=
  let* group_medians := group_medians self in
  let* estimate :=
    match group_medians with
    | [] => Raise ZeroDivisionError
    | _ => float_truediv_int (sum group_medians) (len group_medians)
    end in
  int_of_float estimate.

Definition process_all (stream : list string) : method t unit :=
  for_each stream process.

End WithHash.

End FlajoletMartinMultiple.

(** * BloomFilter *)

Module BloomFilter.

Section WithHash.

(** [mmh3.hash64(value, seed)], a pair of signed 64-bit integers. *)
Variable mmh3_hash64 : string -> Z -> Z * Z.

Record t : Set := {
  size : Z;
  hash_count : Z;
  bit_array : list bool
}.

Definition set_bit_array (self : t) (b : list bool) : t :=
  {| size := size self; hash_count := hash_count self; bit_array := b |}.

(** [bitarray(n)]: [n] bits, [ValueError] on a negative length.  The
    library leaves the initial contents unspecified, which is why the
    constructor calls [setall(0)]; the model starts from set bits. *)
Definition bitarray (n : Z) : outcome (list bool) :=
  if n <? 0 then Raise ValueError else Ok (replicate (Z.to_nat n) true).

(** [b.setall(v)] *)
Definition setall (b : list bool) (v : bool) : list bool := (fun _ => v) <$> b.

Definition __init__ (bitmap_size hash_count : Z) : outcome t :=
  let* b := bitarray bitmap_size in
  Ok {| size := bitmap_size;
        hash_count := hash_count;
        bit_array := setall b false |}.

(** [a % b] on integers. *)
Definition mod_ (a b : Z) : outcome Z :=
  if b =? 0 then Raise ZeroDivisionError else Ok (a mod b).

(** [mmh3.hash64(value, i)[0] % self.size] for [i] in [range(hash_count)].
    (The first revision of the notebook applies [%] to the pair itself,
    which raises [TypeError]; the class is modelled in its later revision,
    which selects the first component.) *)
Definition _hashes (self : t) (value : string) : outcome (list Z) :=
  comprehension
    (fun i => mod_ (fst (mmh3_hash64 value i)) (size self))
    (range (hash_count self)).

(** The body of the loop of [add]: [self.bit_array[hash_val] = 1]. *)
Definition set_bit (hash_val : Z) : method t unit :=
  fun self =>
    match setitem (bit_array self) hash_val true with
    | Ok b => (Ok tt, set_bit_array self b)
    | Raise e => (Raise e, self)
    end.

Definition add (value : string) : method t unit :=
  do* hs := (fun self => (_hashes self value, self)) in
  for_each hs set_bit.

(** [all(g)] over a generator: stops at the first false item, an
    exception raised before that point propagates. *)
Fixpoint all_ {A : Type} (f : A -> outcome bool) (l : list A) : outcome bool :=
  match l with
  | [] => Ok true
  | x :: l' =>
      let* b := f x in
      if b then all_ f l' else Ok false
  end.

Definition query (value : string) : method t bool :=
  fun self =>
    (let* hs := _hashes self value in
     all_ (fun hash_val => getitem (bit_array self) hash_val) hs,
     self).

(** The driver [init_filter] of the notebook, reduced to its calls on the
    filter: every selected row is added, in order. *)
Definition add_all (stream : list string) : method t unit :=
  for_each stream add.

End WithHash.

End BloomFilter.

(** * Specification-side definitions *)

(** Number of trailing zero bits of a positive number. *)
Fixpoint ctz (p : positive) : nat :=
  match p with
  | xO q => S (ctz q)
  | _ => O
  end.

(** [t] is the number of trailing zero bits of [h]: bit [t] is set and no
    bit below it is. *)
Definition trailing_zero_bits (h : Z) (t : nat) : Prop :=
  Z.testbit h (Z.of_nat t) = true /\
  forall i : Z, 0 <= i < Z.of_nat t -> Z.testbit h i = false.

(** The binary64 value of [2 ** r / phi] for [r < 1024]: the quotient
    [1 / phi = 0x1.4af578e1fa8d6p+0] scaled by [2 ** r]. *)
Definition corrected_estimate (r : nat) : float :=
  S754_finite false 5822290115668182 (Z.of_nat r - 52).

(** Structural equality of floats, to check computed values. *)
Definition float_eqb (x y : float) : bool :=
  match x, y with
  | S754_zero a, S754_zero b => Bool.eqb a b
  | S754_infinity a, S754_infinity b => Bool.eqb a b
  | S754_nan, S754_nan => true
  | S754_finite a m e, S754_finite b n f =>
      Bool.eqb a b && Pos.eqb m n && Z.eqb e f
  | _, _ => false
  end.

Definition returns_float (x : outcome float) (y : float) : bool :=
  match x with
  | Ok z => float_eqb z y
  | Raise _ => false
  end.

(** [2 ** r / phi] evaluates to [corrected_estimate r]. *)
Definition division_check (r : nat) : bool :=
  returns_float (int_truediv_float (2 ^ Z.of_nat r) Globals.phi)
                (corrected_estimate r).

(** The mean of the one-element list [[2 ** r / phi]] is its element. *)
Definition single_mean_check (r : nat) : bool :=
  returns_float (float_truediv_int (sum [corrected_estimate r]) 1)
                (corrected_estimate r).

(** Largest exponent [r] for which [2 ** r] still converts to a float. *)
Definition max_exponent : nat := 1023.

(** Width of the hash of [FlajoletMartinMultiple], a bound on its tail
    lengths. *)
Definition hash_width : nat := 128.

(** The truncated float mean of the two medians [2 ** a / phi] and
    [2 ** b / phi] lies between the truncations of the smaller and of the
    larger one. *)
Definition pair_mean_check (a b : nat) : bool :=
  match
    (let* mean :=
       float_truediv_int (sum [corrected_estimate a; corrected_estimate b]) 2 in
     int_of_float mean),
    int_of_float (corrected_estimate (Nat.min a b)),
    int_of_float (corrected_estimate (Nat.max a b))
  with
  | Ok e, Ok lo, Ok hi => (lo <=? e) && (e <=? hi)
  | _, _, _ => false
  end.

(** The maximum of [a] and of [f x] over the elements [x] of a stream,
    accumulated in arrival order. *)
Definition running_max {A : Type} (f : A -> nat) (stream : list A) (a : nat) : nat :=
  fold_left (fun m x => Nat.max m (f x)) stream a.

(** ** Shape of a [FlajoletMartinMultiple] instance *)

(** What [__init__] establishes and [process] keeps: the matrix has
    [num_groups] rows of [hashes_per_group] cells, every cell has a seed,
    and [phi] is the constant of the notebook. *)
Record well_formed (self : FlajoletMartinMultiple.t) : Prop := {
  wf_rows :
    length (FlajoletMartinMultiple.max_tail_length self)
    = Z.to_nat (FlajoletMartinMultiple.num_groups self);
  wf_cols :
    Forall (fun row => length row
                       = Z.to_nat (FlajoletMartinMultiple.hashes_per_group self))
           (FlajoletMartinMultiple.max_tail_length self);
  wf_seeds :
    (Z.to_nat (FlajoletMartinMultiple.num_groups self)
     * Z.to_nat (FlajoletMartinMultiple.hashes_per_group self)
     <= length (FlajoletMartinMultiple.seeds self))%nat;
  wf_phi : FlajoletMartinMultiple.phi self = Globals.phi
}.

(** Cell-wise order on two matrices of the same shape. *)
Definition cells_le (m1 m2 : list (list nat)) : Prop :=
  Forall2 (Forall2 le) m1 m2.

(** No cell is so large that [2 ** r] no longer converts to a float. *)
Definition cells_bounded (m : list (list nat)) : Prop :=
  Forall (Forall (fun r => (r <= max_exponent)%nat)) m.

(** No cell exceeds the width of the hash. *)
Definition cells_within_width (m : list (list nat)) : Prop :=
  Forall (Forall (fun r => (r <= hash_width)%nat)) m.

(** The tail length that cell [(g, i)] sees for [value]. *)
Definition cell_tail (hash : string -> Z -> Z) (self : FlajoletMartinMultiple.t)
    (value : string) (g i : nat) : nat :=
  let k := Z.to_nat (FlajoletMartinMultiple.hashes_per_group self) in
  tail_length
    (hash value (default 0 (FlajoletMartinMultiple.seeds self !! (g * k + i)%nat))).

(** The matrix in which every cell has absorbed a whole stream. *)
Definition absorbed (hash : string -> Z -> Z) (self : FlajoletMartinMultiple.t)
    (stream : list string) : list (list nat) :=
  imap (fun g row =>
          imap (fun i old =>
                  running_max (fun value => cell_tail hash self value g i) stream old)
               row)
       (FlajoletMartinMultiple.max_tail_length self).

(** Ascending insertion sort on tail lengths, the counterpart of [sorted]
    on their corrected estimates. *)
Fixpoint insert_nat (x : nat) (l : list nat) : list nat :=
  match l with
  | [] => [x]
  | y :: l' => if (y <? x)%nat then y :: insert_nat x l' else x :: y :: l'
  end.

Definition sort_nat (l : list nat) : list nat := fold_right insert_nat [] l.

(** ** Shape of a [BloomFilter] instance *)

(** What [__init__] establishes and [add] keeps: the bit array has [size]
    bits. *)
Definition bloom_valid (self : BloomFilter.t) : Prop :=
  len (BloomFilter.bit_array self) = BloomFilter.size self.

(** Bit-wise order on two bit arrays of the same length: a set bit stays
    set. *)
Definition bits_le (b1 b2 : list bool) : Prop := Forall2 Bool.le b1 b2.

(** ** Reference hash functions

    Deterministic stand-ins for the hash functions, to run the sketches on
    concrete streams: the hash of a string is derived from its length. *)

Module Reference.

Definition sha256 (value : string) : Z := Z.of_nat (String.length value).

Definition hash128 (value : string) (seed : Z) : Z :=
  Z.of_nat (String.length value) * (seed + 1).

(** The [i]-th seed drawn is [i]. *)
Definition randint (i : nat) : Z := Z.of_nat i.

(** The first component is negative when the string is longer than the
    seed, as a signed 64-bit hash may be. *)
Definition hash64 (value : string) (seed : Z) : Z * Z :=
  (seed - 3 * Z.of_nat (String.length value), 0).

End Reference.

(** ** Concrete instances *)

(** One group of two hashes after the stream ["a"]: the cells hold the
    tail lengths 0 and 1. *)
Definition two_cell_instance : FlajoletMartinMultiple.t :=
  snd (FlajoletMartinMultiple.process_all Reference.hash128 ["a"%string]
         (FlajoletMartinMultiple.__init__ Reference.randint 1 2)).

(** Six groups of one hash after a stream whose only element hashes to
    [2 ** 52] under every seed. *)
Definition six_group_instance : FlajoletMartinMultiple.t :=
  snd (FlajoletMartinMultiple.process_all (fun _ _ => 2 ^ 52) ["a"%string]
         (FlajoletMartinMultiple.__init__ Reference.randint 6 1)).

(** Two groups of one hash after the stream ["aaaa"]: the cells hold the
    tail lengths 2 and 3. *)
Definition two_group_instance : FlajoletMartinMultiple.t :=
  snd (FlajoletMartinMultiple.process_all Reference.hash128 ["aaaa"%string]
         (FlajoletMartinMultiple.__init__ Reference.randint 2 1)).

(** The float 1.0. *)
Definition float_one : float := S754_finite false 4503599627370496 (-52).

(** The instance whose estimate the notebook records: 5 groups of 7
    hashes, with the tail lengths read off the sorted arrays it prints
    ([2 ** 18 / phi = 338901.88...] up to [2 ** 25 / phi = 43379441.76...]).
    The seeds of that run are not recorded and do not matter for the
    estimate. *)
Definition recorded_instance : FlajoletMartinMultiple.t :=
  {| FlajoletMartinMultiple.num_groups := 5;
     FlajoletMartinMultiple.hashes_per_group := 7;
     FlajoletMartinMultiple.num_hashes := 35;
     FlajoletMartinMultiple.max_tail_length :=
       [ [19; 20; 20; 20; 22; 24; 24];
         [18; 18; 19; 20; 20; 21; 22];
         [19; 19; 20; 20; 20; 24; 25];
         [18; 19; 19; 20; 21; 22; 24];
         [18; 19; 20; 21; 21; 24; 25] ]%nat;
     FlajoletMartinMultiple.seeds := replicate 35 0;
     FlajoletMartinMultiple.phi := Globals.phi |}.

(** * More of the Python runtime: what the drivers and the earlier
      revisions of the notebooks use *)

Module Builtins.

(** [x <= y] and [x != y] on floats. *)
Definition fle : float -> float -> bool := SFleb.

Definition fne (x y : float) : bool := negb (SFeqb x y).

(** [str(n)] of an integer, which is also how an f-string renders it:
    the decimal digits, after a minus sign for a negative number. *)
Definition str (n : Z) : string := NilZero.string_of_int (Z.to_int n).

(** The value of a hexadecimal digit, in either case. *)
Definition hex_digit (c : ascii) : option Z :=
  let n := Z.of_nat (nat_of_ascii c) in
  if (48 <=? n) && (n <=? 57) then Some (n - 48)
  else if (97 <=? n) && (n <=? 102) then Some (n - 87)
  else if (65 <=? n) && (n <=? 70) then Some (n - 55)
  else None.

Fixpoint int16_from (acc : Z) (s : string) : option Z :=
  match s with
  | EmptyString => Some acc
  | String c s' =>
      match hex_digit c with
      | Some d => int16_from (16 * acc + d) s'
      | None => None
      end
  end.

(** [int(s, 16)] on a non-empty string of hexadecimal digits, the form in
    which [hexdigest] returns a digest.  What else [int] accepts (a sign,
    the prefix [0x], underscores, surrounding blanks) is outside this
    fragment: [None]. *)
Definition int16 (s : string) : option Z :=
  match s with
  | EmptyString => None
  | _ => int16_from 0 s
  end.

(** A row as [csv.DictReader] yields it: the value of each column, [row c]
    for [row['c']].  The files are taken to have the columns the notebooks
    read. *)
Definition row : Set := string -> string.

End Builtins.

Import Builtins.

(** * BloomFilter, first revision ([bloom_filter.ipynb])

    The class differs from the later revision in one expression of
    [_hashes]: [%] is applied to the pair that [mmh3.hash64] returns. *)

Module BloomFilterFirst.

Section WithHash.

Variable mmh3_hash64 : string -> Z -> Z * Z.

(** [a % b] with a tuple on the left and an integer on the right: the
    operand types do not support [%]. *)
Definition mod_tuple (a : Z * Z) (b : Z) : outcome Z := Raise TypeError.

Definition _hashes (self : BloomFilter.t) (value : string) : outcome (list Z) :=
  comprehension
    (fun i => mod_tuple (mmh3_hash64 value i) (BloomFilter.size self))
    (range (BloomFilter.hash_count self)).

Definition add (value : string) : method BloomFilter.t unit :=
  do* hs := (fun self => (_hashes self value, self)) in
  for_each hs BloomFilter.set_bit.

Definition query (value : string) : method BloomFilter.t bool :=
  fun self =>
    (let* hs := _hashes self value in
     BloomFilter.all_
       (fun hash_val => getitem (BloomFilter.bit_array self) hash_val) hs,
     self).

End WithHash.

End BloomFilterFirst.

(** * The drivers of the Bloom filter notebook *)

Module BloomNotebook.

Section WithHash.

Variable mmh3_hash64 : string -> Z -> Z * Z.

(** The successive results of [random.random()] during a call. *)
Variable random_random : nat -> float.

(** The loop of [init_filter], the local variable [counter] as an
    argument. *)
Fixpoint init_rows (rows : list row) (counter : Z) : method BloomFilter.t Z :=
  match rows with
  | [] => ret counter
  | row :: rows' =>
      if String.eqb (row "genre") "Western" then
        do* _u := BloomFilter.add mmh3_hash64 (row "id") in
        init_rows rows' (counter + 1)
      else init_rows rows' counter
  end%string.

(** The two [print] calls and the timer are left out. *)
Definition init_filter (file : list row) : method BloomFilter.t Z :=
  init_rows file 0.

(** The loop of [test_filter]; [n] rows were read before [rows], each of
    them has consumed one draw. *)
Fixpoint test_rows (rows : list row) (sample_rate : float) (n : nat)
    (counter : Z) (ids : list string) : method BloomFilter.t (Z * list string) :=
  match rows with
  | [] => ret (counter, ids)
  | row :: rows' =>
      if flt (random_random n) sample_rate then
        do* found := BloomFilter.query mmh3_hash64 (row "id") in
        if found then
          test_rows rows' sample_rate (S n) (counter + 1)
            (if fne sample_rate float_one then ids ++ [row "id"] else ids)
        else test_rows rows' sample_rate (S n) counter ids
      else test_rows rows' sample_rate (S n) counter ids
  end%string.

Definition test_filter (file : list row) (sample_rate : float)
  : method BloomFilter.t (Z * list string) :=
  test_rows file sample_rate 0 0 [].

End WithHash.

(** The inner loop of [count_fp]: the first [id] that matches the row
    counts it and ends the loop. *)
Fixpoint count_row (row : row) (ids : list string) (counter : Z) : Z :=
  match ids with
  | [] => counter
  | id :: ids' =>
      if String.eqb (row "id") id && String.eqb (row "genre") "Western"
      then counter + 1
      else count_row row ids' counter
  end%string.

(** [count_fp(ids)], with the rows of the file [genres_csv] it reads. *)
Definition count_fp (genres_file : list row) (ids : list string) : Z :=
  let counter :=
    fold_left (fun counter row => count_row row ids counter) genres_file 0 in
  len ids - counter.

End BloomNotebook.

(** * The driver of [count_distinct.ipynb] *)

Module CountDistinct.

(** What [process_csv] expects of its argument [fm]: a [process] method
    and an [estimate_cardinality] method, which both Flajolet-Martin
    classes have. *)
Class Sketch (T : Type) : Type := {
  process : string -> method T unit;
  estimate_cardinality : T -> outcome Z
}.

Definition simple (sha256 : string -> Z) : Sketch FlajoletMartinSimple.t := {|
  process value :=
    fun fm => (Ok tt, FlajoletMartinSimple.process sha256 fm value);
  estimate_cardinality fm := Ok (FlajoletMartinSimple.estimate_cardinality fm)
|}.

Definition multiple (mmh3_hash128 : string -> Z -> Z)
  : Sketch FlajoletMartinMultiple.t := {|
  process := FlajoletMartinMultiple.process mmh3_hash128;
  estimate_cardinality := FlajoletMartinMultiple.estimate_cardinality
|}.

Section WithSketch.

Context {T : Type} {fm_class : Sketch T}.

(** The successive results of [random.random()] during a call. *)
Variable random_random : nat -> float.

(** The loop of [process_csv]; [n] rows were read before [rows]. *)
Fixpoint process_rows (rows : list row) (sample_rate : float) (n : nat)
    (counter : Z) : method T Z :=
  match rows with
  | [] => ret counter
  | row :: rows' =>
      if fle (random_random n) sample_rate then
        let actor := row "name"%string in
        do* _u := process actor in
        process_rows rows' sample_rate (S n) (counter + 1)
      else process_rows rows' sample_rate (S n) counter
  end.

Definition process_csv (file : list row) (sample_rate : float)
  : method T (Z * Z) :=
  do* counter := process_rows file sample_rate 0 0 in
  fun fm =>
    (let* cardinality := estimate_cardinality fm in Ok (cardinality, counter),
     fm).

End WithSketch.

End CountDistinct.

(** * The earlier revision of [count_distinct.ipynb] *)

Module CountDistinctEarlier.

(** [FlajoletMartinMultiple._hash] of the earlier revision: the seed is
    not an argument of the hash function, it is written in front of the
    value.  [sha256] is the hash of [FlajoletMartinSimple]. *)
Definition _hash (sha256 : string -> Z) (value : string) (seed : Z) : Z :=
  let hash_input := (str seed ++ "-" ++ value)%string in
  sha256 hash_input.

Section WithSketch.

Context {T : Type} {fm_class : CountDistinct.Sketch T}.

Variable random_random : nat -> float.

(** The loop of [process_csv] in this revision: [counter] is incremented
    for every row, outside the test on the draw. *)
Fixpoint process_rows (rows : list row) (sample_rate : float) (n : nat)
    (counter : Z) : method T Z :=
  match rows with
  | [] => ret counter
  | row :: rows' =>
      do* _u :=
        (if fle (random_random n) sample_rate then
           let actor := row "name"%string in
           CountDistinct.process actor
         else ret tt) in
      process_rows rows' sample_rate (S n) (counter + 1)
  end.

Definition process_csv (file : list row) (sample_rate : float)
  : method T (Z * Z) :=
  do* counter := process_rows file sample_rate 0 0 in
  fun fm =>
    (let* cardinality := CountDistinct.estimate_cardinality fm in
     Ok (cardinality, counter),
     fm).

End WithSketch.

End CountDistinctEarlier.

(** * Specification-side definitions for the drivers *)

(** The indices [_hashes] returns on a filter whose [size] is not zero. *)
Definition probe_indices (hash64 : string -> Z -> Z * Z) (self : BloomFilter.t)
    (value : string) : list Z :=
  (fun i => fst (hash64 value i) mod BloomFilter.size self)
    <$> range (BloomFilter.hash_count self).

(** A bit array after the bits at the given indices were set, one after the
    other. *)
Definition set_bits (b : list bool) (hs : list Z) : list bool :=
  fold_left (fun b h => <[Z.to_nat h := true]> b) hs b.

(** Number of set bits. *)
Fixpoint ones (b : list bool) : nat :=
  match b with
  | [] => O
  | x :: b' => ((if x then 1 else 0) + ones b')%nat
  end.

(** The rows that a loop drawing one number per row keeps, [n] rows having
    been read before. *)
Fixpoint kept (random : nat -> float) (keep : float -> bool) (n : nat)
    (rows : list row) : list row :=
  match rows with
  | [] => []
  | row :: rows' =>
      if keep (random n) then row :: kept random keep (S n) rows'
      else kept random keep (S n) rows'
  end.

(** The values of a column. *)
Definition column (c : string) (rows : list row) : list string :=
  (fun row : row => row c) <$> rows.

(** The ids of the rows of genre Western, in file order. *)
Definition western_ids (rows : list row) : list string :=
  column "id"
    (List.filter (fun row : row => String.eqb (row "genre") "Western") rows)%string.

(** A row of the genres file, and a row with the same value in every
    column. *)
Definition genre_row (id genre : string) : row :=
  fun c =>
    (if String.eqb c "id" then id
     else if String.eqb c "genre" then genre
     else EmptyString)%string.

Definition plain_row (value : string) : row := fun _ => value.

(** Draws for concrete runs: 0.0 and 0.75 in turn, and the sample rate
    0.5. *)
Definition reference_draws (i : nat) : float :=
  if Nat.even i then S754_zero false
  else S754_finite false 6755399441055744 (-53).

Definition float_half : float := S754_finite false 4503599627370496 (-53).

(** What [query] answers for a value, [False] standing in for an
    exception. *)
Definition answers_true (hash64 : string -> Z -> Z * Z) (self : BloomFilter.t)
    (value : string) : bool :=
  match fst (BloomFilter.query hash64 value self) with
  | Ok b => b
  | Raise _ => false
  end.

(** Membership of a string in a list. *)
Definition mem (x : string) (l : list string) : bool := existsb (String.eqb x) l.

(** Two states with the fields that [__init__] sets once and for all:
    everything but the matrix. *)
Definition same_parameters (s s' : FlajoletMartinMultiple.t) : Prop :=
  FlajoletMartinMultiple.num_groups s' = FlajoletMartinMultiple.num_groups s /\
  FlajoletMartinMultiple.hashes_per_group s'
  = FlajoletMartinMultiple.hashes_per_group s /\
  FlajoletMartinMultiple.num_hashes s' = FlajoletMartinMultiple.num_hashes s /\
  FlajoletMartinMultiple.seeds s' = FlajoletMartinMultiple.seeds s /\
  FlajoletMartinMultiple.phi s' = FlajoletMartinMultiple.phi s.

(** A string without the character [-]. *)
Fixpoint no_dash (s : string) : Prop :=
  match s with
  | EmptyString => True
  | String c s' => c <> "-"%char /\ no_dash s'
  end.

(** A string of hexadecimal digits. *)
Fixpoint hex_string (s : string) : Prop :=
  match s with
  | EmptyString => True
  | String c s' => hex_digit c <> None /\ hex_string s'
  end.

(** Three groups of one hash holding the given tail lengths. *)
Definition three_groups (a b c : nat) : FlajoletMartinMultiple.t :=
  {| FlajoletMartinMultiple.num_groups := 3;
     FlajoletMartinMultiple.hashes_per_group := 1;
     FlajoletMartinMultiple.num_hashes := 3;
     FlajoletMartinMultiple.max_tail_length := [[a]; [b]; [c]];
     FlajoletMartinMultiple.seeds := replicate 3 0;
     FlajoletMartinMultiple.phi := Globals.phi |}.

(** ** Concrete inputs for the drivers *)

(** A filter of 8 bits and 3 hashes, empty and after the value ["ab"]. *)
Definition small_filter : BloomFilter.t :=
  {| BloomFilter.size := 8;
     BloomFilter.hash_count := 3;
     BloomFilter.bit_array := replicate 8 false |}.

Definition loaded_filter : BloomFilter.t :=
  snd (BloomFilter.add_all Reference.hash64 ["ab"%string] small_filter).

Definition reference_genres : list row :=
  [genre_row "1" "Western"; genre_row "2" "Drama"; genre_row "3" "Western"].

Definition reference_movies : list row :=
  plain_row <$> ["1"; "2"; "3"; "4"]%string.

Definition reference_actors : list row :=
  plain_row <$> ["a"; "bb"; "a"; "cccc"]%string.

(** Draws that are all 0.0. *)
Definition zero_draws (i : nat) : float := S754_zero false.

(** Two groups of two hashes holding the given matrix. *)
Definition grid (rows : list (list nat)) : FlajoletMartinMultiple.t :=
  FlajoletMartinMultiple.set_max_tail_length
    (FlajoletMartinMultiple.__init__ Reference.randint 2 2) rows.

(** The SHA-256 digest of the string ["a"], as [hexdigest] returns it. *)
Definition digest_of_a : string :=
  "ca978112ca1bbdcafac231b39a23dc4da786eff8147c4e72b9807785afee48bb".

(** * Tail length *)

Section TailLength.

Lemma string_length_app (s1 s2 : string) :
  String.length (s1 ++ s2) = (String.length s1 + String.length s2)%nat.
Proof. induction s1 as [|a s1 IH]; simpl; [reflexivity | now rewrite IH]. Qed.

Lemma rstrip_length_le (chars s : string) :
  (String.length (rstrip chars s) <= String.length s)%nat.
Proof.
  induction s as [|a s IH]; simpl; [lia|].
  destruct (rstrip chars s) as [|b r] eqn:E.
  - destruct (char_in a chars); simpl; lia.
  - simpl in *. lia.
Qed.

Lemma rstrip_snoc_zero (s : string) :
  rstrip "0" (s ++ "0") = rstrip "0" s.
Proof.
  induction s as [|a s IH]; simpl; [reflexivity|].
  simpl in IH. now rewrite IH.
Qed.

Lemma rstrip_snoc_one (s : string) :
  rstrip "0" (s ++ "1") = (s ++ "1")%string.
Proof.
  induction s as [|a s IH]; simpl; [reflexivity|].
  simpl in IH. rewrite IH. now destruct s.
Qed.

Lemma bin_pos_tail (p : positive) :
  (String.length (bin_pos p) - String.length (rstrip "0" (bin_pos p)))%nat = ctz p.
Proof.
  induction p as [q IH|q IH|]; simpl bin_pos; simpl ctz.
  - rewrite rstrip_snoc_one. lia.
  - rewrite rstrip_snoc_zero, string_length_app. simpl String.length.
    pose proof (rstrip_length_le "0" (bin_pos q)). lia.
  - reflexivity.
Qed.

Lemma tail_length_pos (p : positive) : tail_length (Z.pos p) = ctz p.
Proof. unfold tail_length. simpl. apply bin_pos_tail. Qed.

Lemma tail_length_zero : tail_length 0 = 1%nat.
Proof. reflexivity. Qed.

Lemma ctz_trailing (p : positive) : trailing_zero_bits (Z.pos p) (ctz p).
Proof.
  induction p as [q IH|q [IH1 IH2]|]; simpl ctz.
  - split; [|intros i Hi; lia].
    rewrite Pos2Z.inj_xI. apply Z.testbit_odd_0.
  - split.
    + rewrite Nat2Z.inj_succ, Pos2Z.inj_xO, Z.double_bits_succ. exact IH1.
    + intros i Hi. rewrite Pos2Z.inj_xO.
      destruct (Z.eq_dec i 0) as [->|Hne]; [apply Z.testbit_even_0|].
      replace i with (Z.succ (i - 1)) by lia.
      rewrite Z.double_bits_succ. apply IH2. lia.
  - split; [reflexivity | intros i Hi; simpl in Hi; lia].
Qed.

Lemma ctz_pow2_le (p : positive) : 2 ^ Z.of_nat (ctz p) <= Z.pos p.
Proof.
  induction p as [q IH|q IH|]; simpl ctz; try (simpl; lia).
  rewrite Nat2Z.inj_succ, Z.pow_succ_r by lia. lia.
Qed.

Lemma ctz_lt_width (p : positive) (W : Z) :
  Z.pos p < 2 ^ W -> Z.of_nat (ctz p) < W.
Proof.
  intros H. pose proof (ctz_pow2_le p) as Hle.
  destruct (Z_lt_le_dec (Z.of_nat (ctz p)) W) as [|Hge]; [assumption|].
  exfalso. destruct (Z_lt_le_dec W 0) as [Hneg|Hnn].
  - rewrite Z.pow_neg_r in H by assumption. lia.
  - pose proof (Z.pow_le_mono_r 2 W (Z.of_nat (ctz p))). lia.
Qed.

Lemma tail_length_bound (W h : Z) :
  1 <= W -> 0 <= h < 2 ^ W -> Z.of_nat (tail_length h) <= W.
Proof.
  intros HW [Hlo Hhi]. destruct h as [|p|p]; try lia.
  - rewrite tail_length_zero. lia.
  - rewrite tail_length_pos. pose proof (ctz_lt_width p W Hhi). lia.
Qed.

(** C6 (as the code has it): both classes compute the same tail length;
    for a non-zero W-bit hash value it is the number of trailing zero bits
    and lies in [0, W); for the all-zero hash value it is 1, the length of
    the one-digit string [bin(0)[2:] = "0"], whatever the width. *)
Theorem tail_length_spec (W h : Z) :
  0 <= h < 2 ^ W ->
  FlajoletMartinMultiple._tail_length h = FlajoletMartinSimple._tail_length h /\
  (h = 0 -> FlajoletMartinSimple._tail_length h = 1%nat) /\
  (0 < h ->
   trailing_zero_bits h (FlajoletMartinSimple._tail_length h) /\
   0 <= Z.of_nat (FlajoletMartinSimple._tail_length h) < W).
Proof.
  intros [Hlo Hhi]. split; [reflexivity|].
  unfold FlajoletMartinSimple._tail_length. split.
  - intros ->. apply tail_length_zero.
  - intros Hpos. destruct h as [|p|p]; try lia.
    rewrite tail_length_pos. split; [apply ctz_trailing|].
    split; [lia | now apply ctz_lt_width].
Qed.

(** C6 at the 256-bit hash value 12 = 0b1100, of tail length 2. *)
Lemma tail_length_spec_witness :
  0 <= 12 < 2 ^ 256 /\
  FlajoletMartinMultiple._tail_length 12 = FlajoletMartinSimple._tail_length 12 /\
  (12 = 0 -> FlajoletMartinSimple._tail_length 12 = 1%nat) /\
  (0 < 12 ->
   trailing_zero_bits 12 (FlajoletMartinSimple._tail_length 12) /\
   0 <= Z.of_nat (FlajoletMartinSimple._tail_length 12) < 256).
Proof.
  assert (H : 0 <= 12 < 2 ^ 256) by (split; [lia | reflexivity]).
  split; [exact H | exact (tail_length_spec 256 12 H)].
Defined.

(** C6 as stated fails at the all-zero hash value: the code returns 1,
    not the width of the hash (256 for SHA-256, 128 for [mmh3.hash128]). *)
Lemma tail_length_zero_not_width :
  FlajoletMartinSimple._tail_length 0 = 1%nat /\
  FlajoletMartinMultiple._tail_length 0 = 1%nat /\
  FlajoletMartinSimple._tail_length 0 <> 256%nat /\
  FlajoletMartinMultiple._tail_length 0 <> 128%nat.
Proof. repeat split; discriminate. Qed.

End TailLength.

(** * Facts about the runtime fragment *)

Section Runtime.

Context {A : Type}.

Lemma norm_index_nat (n j : nat) :
  (j < n)%nat -> norm_index n (Z.of_nat j) = Ok j.
Proof.
  intros H. unfold norm_index.
  destruct (Z.ltb_spec (Z.of_nat j) 0) as [|_]; [lia|].
  destruct (Z.leb_spec 0 (Z.of_nat j)); [|lia].
  destruct (Z.ltb_spec (Z.of_nat j) (Z.of_nat n)); [|lia].
  simpl. now rewrite Nat2Z.id.
Qed.

Lemma norm_index_ok (n : nat) (i : Z) (j : nat) :
  norm_index n i = Ok j -> (j < n)%nat.
Proof.
  unfold norm_index.
  destruct (_ && _) eqn:E; [|discriminate].
  apply andb_true_iff in E as [E1 E2].
  apply Z.leb_le in E1. apply Z.ltb_lt in E2.
  intros [= <-]. lia.
Qed.

Lemma norm_index_range (n : nat) (i : Z) :
  0 <= i < Z.of_nat n -> norm_index n i = Ok (Z.to_nat i).
Proof.
  intros H. rewrite <- (Z2Nat.id i) at 1 by lia.
  apply norm_index_nat. lia.
Qed.

Lemma getitem_nat (l : list A) (j : nat) (x : A) :
  l !! j = Some x -> getitem l (Z.of_nat j) = Ok x.
Proof.
  intros H. unfold getitem.
  rewrite norm_index_nat by (eapply lookup_lt_Some; eassumption).
  simpl. now rewrite H.
Qed.

Lemma getitem_ok (l : list A) (i : Z) (x : A) :
  getitem l i = Ok x ->
  exists j, norm_index (length l) i = Ok j /\ l !! j = Some x.
Proof.
  unfold getitem. destruct (norm_index (length l) i) as [j|e]; simpl; [|discriminate].
  destruct (l !! j) as [y|] eqn:E; [|discriminate].
  intros [= <-]. eauto.
Qed.

Lemma getitem_total (l : list A) (i : Z) :
  0 <= i < Z.of_nat (length l) -> exists x, getitem l i = Ok x.
Proof.
  intros H. destruct (lookup_lt_is_Some_2 l (Z.to_nat i)) as [x Hx]; [lia|].
  exists x. rewrite <- (Z2Nat.id i) by lia. now apply getitem_nat.
Qed.

Lemma setitem_nat (l : list A) (j : nat) (y : A) :
  (j < length l)%nat -> setitem l (Z.of_nat j) y = Ok (<[j := y]> l).
Proof. intros H. unfold setitem. now rewrite norm_index_nat. Qed.

Lemma setitem_ok (l l' : list A) (i : Z) (y : A) :
  setitem l i y = Ok l' ->
  exists j, norm_index (length l) i = Ok j /\ l' = <[j := y]> l.
Proof.
  unfold setitem. destruct (norm_index (length l) i) as [j|e]; simpl; [|discriminate].
  intros [= <-]. eauto.
Qed.

Lemma range_nat (n : nat) : range (Z.of_nat n) = Z.of_nat <$> seq 0 n.
Proof. unfold range. now rewrite Nat2Z.id. Qed.

Lemma range_nonpos (n : Z) : n <= 0 -> range n = [].
Proof.
  intros H. unfold range. replace (Z.to_nat n) with O by lia. reflexivity.
Qed.

Lemma range_length (n : Z) : length (range n) = Z.to_nat n.
Proof. unfold range. now rewrite length_fmap, length_seq. Qed.

Lemma fmap_const_replicate {B : Type} (y : B) (l : list A) :
  (fun _ => y) <$> l = replicate (length l) y.
Proof. induction l as [|x l IH]; simpl; [reflexivity | now rewrite <- IH]. Qed.

End Runtime.

Section Loops.

Context {S A : Type}.

(** A relation between the state before and after that every iteration
    respects is respected by the whole loop, whether or not it raises. *)
Lemma for_each_preserves (R : S -> S -> Prop) (body : A -> method S unit) :
  (forall s, R s s) ->
  (forall s1 s2 s3, R s1 s2 -> R s2 s3 -> R s1 s3) ->
  (forall x s, R s (snd (body x s))) ->
  forall l s, R s (snd (for_each l body s)).
Proof.
  intros Hrefl Htrans Hbody l. induction l as [|x l IH]; intros s; simpl.
  - apply Hrefl.
  - unfold seq_bind. specialize (Hbody x s).
    destruct (body x s) as [[[]|e] s']; simpl in *.
    + eapply Htrans; [exact Hbody | apply IH].
    + exact Hbody.
Qed.

(** A loop over [range(len(l))] whose iteration [j] replaces element [j]
    of a list held in the state by [f j] of it computes [imap f]. *)
Lemma for_each_imap (put : list A -> S) (f : nat -> A -> A)
    (body : Z -> method S unit) (l : list A) :
  (forall j x l', length l' = length l -> l' !! j = Some x -> l !! j = Some x ->
     body (Z.of_nat j) (put l') = (Ok tt, put (<[j := f j x]> l'))) ->
  for_each (range (Z.of_nat (length l))) body (put l) = (Ok tt, put (imap f l)).
Proof.
  intros Hbody. rewrite range_nat.
  assert (Hgen : forall d j, (j + d = length l)%nat ->
    for_each (Z.of_nat <$> seq j d) body (put (take j (imap f l) ++ drop j l))
    = (Ok tt, put (imap f l))).
  { induction d as [|d IH]; intros j Hj; simpl.
    - rewrite take_ge, drop_ge by (rewrite ?length_imap; lia).
      now rewrite app_nil_r.
    - destruct (lookup_lt_is_Some_2 l j) as [x Hx]; [lia|].
      unfold seq_bind.
      rewrite (Hbody j x).
      + replace (<[j:=f j x]> (take j (imap f l) ++ drop j l))
          with (take (Datatypes.S j) (imap f l) ++ drop (Datatypes.S j) l).
        * apply IH. lia.
        * rewrite (take_S_r (imap f l) j (f j x))
            by (rewrite list_lookup_imap, Hx; reflexivity).
          rewrite (drop_S l x j Hx).
          rewrite <- app_assoc. simpl.
          rewrite insert_app_r_alt by (rewrite length_take, length_imap; lia).
          rewrite length_take, length_imap.
          replace (j - j `min` length l)%nat with O by lia. reflexivity.
      + rewrite length_app, length_take, length_drop, length_imap. lia.
      + rewrite lookup_app_r by (rewrite length_take, length_imap; lia).
        rewrite length_take, length_imap, lookup_drop.
        replace (j + (j - j `min` length l))%nat with j by lia. exact Hx.
      + exact Hx. }
  specialize (Hgen (length l) O eq_refl). simpl in Hgen.
  rewrite drop_0 in Hgen. exact Hgen.
Qed.

Lemma for_each_app (l1 l2 : list A) (body : A -> method S unit) (s s' : S) :
  for_each l1 body s = (Ok tt, s') ->
  for_each (l1 ++ l2) body s = for_each l2 body s'.
Proof.
  revert s. induction l1 as [|x l1 IH]; intros s; simpl.
  - unfold ret. now intros [= ->].
  - unfold seq_bind. destruct (body x s) as [[[]|e] s0]; [apply IH | discriminate].
Qed.

End Loops.

(** * Facts about binary64 values of the form [2 ** r / phi] *)

Section Floats.

Lemma float_eqb_eq (x y : float) : float_eqb x y = true -> x = y.
Proof.
  destruct x as [a|a| |a m e], y as [b|b| |b n f]; simpl; try discriminate.
  - intros H. apply Bool.eqb_prop in H. now subst.
  - intros H. apply Bool.eqb_prop in H. now subst.
  - reflexivity.
  - intros H. apply andb_true_iff in H as [H He].
    apply andb_true_iff in H as [Hs Hm].
    apply Bool.eqb_prop in Hs. apply Pos.eqb_eq in Hm. apply Z.eqb_eq in He.
    now subst.
Qed.

Lemma returns_float_eq (x : outcome float) (y : float) :
  returns_float x y = true -> x = Ok y.
Proof.
  destruct x as [z|e]; simpl; [|discriminate].
  intros H. now rewrite (float_eqb_eq _ _ H).
Qed.

Lemma checked_below (check : nat -> bool) (n r : nat) :
  forallb check (seq 0 n) = true -> (r < n)%nat -> check r = true.
Proof.
  intros Hall Hr. rewrite forallb_forall in Hall.
  apply Hall. apply in_seq. lia.
Qed.

Lemma division_checked :
  forallb division_check (seq 0 (S max_exponent)) = true.
Proof. vm_compute. reflexivity. Qed.

Lemma single_mean_checked :
  forallb single_mean_check (seq 0 (S max_exponent)) = true.
Proof. vm_compute. reflexivity. Qed.

(** The constant [Globals.phi] is the correctly rounded quotient
    [77351 / 100000], the value of the literal [0.77351]. *)
Lemma phi_literal :
  (let* a := float_of_int 77351 in
   let* b := float_of_int 100000 in
   truediv a b) = Ok Globals.phi.
Proof. reflexivity. Qed.

Lemma corrected_estimate_div (r : nat) :
  (r <= max_exponent)%nat ->
  int_truediv_float (2 ^ Z.of_nat r) Globals.phi = Ok (corrected_estimate r).
Proof.
  intros Hr. apply returns_float_eq.
  apply (checked_below division_check (S max_exponent)); [apply division_checked | lia].
Qed.

Lemma corrected_estimate_mean (r : nat) :
  (r <= max_exponent)%nat ->
  float_truediv_int (sum [corrected_estimate r]) 1 = Ok (corrected_estimate r).
Proof.
  intros Hr. apply returns_float_eq.
  apply (checked_below single_mean_check (S max_exponent)); [apply single_mean_checked | lia].
Qed.

Lemma pair_mean_checked :
  forallb (fun a => forallb (pair_mean_check a) (seq 0 (S hash_width)))
          (seq 0 (S hash_width)) = true.
Proof. vm_compute. reflexivity. Qed.

Lemma corrected_estimate_pair_mean (a b : nat) :
  (a <= hash_width)%nat -> (b <= hash_width)%nat ->
  exists e lo hi,
    (let* mean :=
       float_truediv_int (sum [corrected_estimate a; corrected_estimate b]) 2 in
     int_of_float mean) = Ok e /\
    int_of_float (corrected_estimate (Nat.min a b)) = Ok lo /\
    int_of_float (corrected_estimate (Nat.max a b)) = Ok hi /\
    lo <= e <= hi.
Proof.
  intros Ha Hb.
  assert (Hrow : forallb (pair_mean_check a) (seq 0 (S hash_width)) = true).
  { apply (checked_below
             (fun a => forallb (pair_mean_check a) (seq 0 (S hash_width)))
             (S hash_width) a pair_mean_checked). lia. }
  assert (Hcell : pair_mean_check a b = true).
  { apply (checked_below (pair_mean_check a) (S hash_width) b Hrow). lia. }
  unfold pair_mean_check in Hcell.
  destruct (let* mean := _ in int_of_float mean) as [e|]; [|discriminate].
  destruct (int_of_float (corrected_estimate (Nat.min a b))) as [lo|]; [|discriminate].
  destruct (int_of_float (corrected_estimate (Nat.max a b))) as [hi|]; [|discriminate].
  apply andb_true_iff in Hcell as [Hlo Hhi].
  apply Z.leb_le in Hlo. apply Z.leb_le in Hhi.
  exists e, lo, hi. auto.
Qed.

Lemma corrected_estimate_lt (a b : nat) :
  flt (corrected_estimate a) (corrected_estimate b) = (a <? b)%nat.
Proof.
  unfold flt, SFltb, corrected_estimate, SFcompare.
  destruct (Z.compare_spec (Z.of_nat a - 52) (Z.of_nat b - 52)) as [H|H|H].
  - rewrite Pos.compare_cont_refl.
    symmetry. apply Nat.ltb_ge. lia.
  - symmetry. apply Nat.ltb_lt. lia.
  - symmetry. apply Nat.ltb_ge. lia.
Qed.

Lemma corrected_estimate_int (r : nat) :
  exists e, int_of_float (corrected_estimate r) = Ok e /\ 0 <= e.
Proof.
  unfold corrected_estimate, int_of_float.
  eexists; split; [reflexivity|].
  destruct (Z.leb_spec 0 (Z.of_nat r - 52)).
  - apply Z.mul_nonneg_nonneg; [lia | apply Z.pow_nonneg; lia].
  - apply Z.div_pos; [lia | apply Z.pow_pos_nonneg; lia].
Qed.

End Floats.

(** * Running maxima *)

Section RunningMax.

Context {A : Type} (f : A -> nat).

Lemma running_max_ge_init (l : list A) (a : nat) : (a <= running_max f l a)%nat.
Proof.
  revert a. induction l as [|x l IH]; intros a; simpl; [lia|].
  specialize (IH (Nat.max a (f x))). unfold running_max in *. lia.
Qed.

Lemma running_max_ge_elem (l : list A) (a : nat) (x : A) :
  In x l -> (f x <= running_max f l a)%nat.
Proof.
  revert a. induction l as [|y l IH]; intros a Hin; simpl in *; [tauto|].
  destruct Hin as [->|Hin].
  - pose proof (running_max_ge_init l (Nat.max a (f x))). unfold running_max in *. lia.
  - now apply IH.
Qed.

Lemma running_max_attained (l : list A) (a : nat) :
  running_max f l a = a \/ exists x, In x l /\ running_max f l a = f x.
Proof.
  revert a. induction l as [|y l IH]; intros a; simpl; [now left|].
  destruct (IH (Nat.max a (f y))) as [H|[x [Hin H]]].
  - unfold running_max in *. rewrite H.
    destruct (Nat.max_spec a (f y)) as [[_ ->]|[_ ->]]; [right; eauto | now left].
  - right. eauto.
Qed.

(** The running maximum depends only on the set of elements seen. *)
Lemma running_max_same_set (l1 l2 : list A) (a : nat) :
  (forall x, In x l1 <-> In x l2) ->
  running_max f l1 a = running_max f l2 a.
Proof.
  assert (Hle : forall l l' : list A, (forall x, In x l -> In x l') ->
            (running_max f l a <= running_max f l' a)%nat).
  { intros l l' Hsub.
    destruct (running_max_attained l a) as [->|[x [Hin ->]]].
    - apply running_max_ge_init.
    - apply running_max_ge_elem. auto. }
  intros H. apply Nat.le_antisymm; apply Hle; intros x; apply H.
Qed.

Lemma running_max_app (l1 l2 : list A) (a : nat) :
  running_max f (l1 ++ l2) a = running_max f l2 (running_max f l1 a).
Proof. unfold running_max. apply fold_left_app. Qed.

Lemma running_max_ext_in (g : A -> nat) (l : list A) (a : nat) :
  (forall x, In x l -> f x = g x) ->
  running_max f l a = running_max g l a.
Proof.
  revert a. induction l as [|x l IH]; intros a H; simpl; [reflexivity|].
  rewrite (H x) by now left.
  apply IH. intros y Hy. apply H. now right.
Qed.

Lemma running_max_bound (l : list A) (a b : nat) :
  (a <= b)%nat -> (forall x, In x l -> (f x <= b)%nat) ->
  (running_max f l a <= b)%nat.
Proof.
  intros Ha Hl. destruct (running_max_attained l a) as [->|[x [Hin ->]]]; auto.
Qed.

End RunningMax.

(** * FlajoletMartinSimple *)

Section Simple.

Variable sha256 : string -> Z.

Local Abbreviation process := (FlajoletMartinSimple.process sha256).
Local Abbreviation process_all := (FlajoletMartinSimple.process_all sha256).
Local Abbreviation tail_of := (fun value => tail_length (sha256 value)).

Lemma simple_process_all_max (fm : FlajoletMartinSimple.t) (stream : list string) :
  FlajoletMartinSimple.max_tail_length (process_all fm stream)
  = running_max tail_of stream (FlajoletMartinSimple.max_tail_length fm).
Proof.
  revert fm. induction stream as [|v stream IH]; intros fm; simpl; [reflexivity|].
  rewrite IH. reflexivity.
Qed.

Lemma simple_process_monotone (fm : FlajoletMartinSimple.t) (value : string) :
  (FlajoletMartinSimple.max_tail_length fm
   <= FlajoletMartinSimple.max_tail_length (process fm value))%nat.
Proof. simpl. lia. Qed.

Lemma simple_same_set (fm : FlajoletMartinSimple.t) (l1 l2 : list string) :
  (forall x, In x l1 <-> In x l2) ->
  process_all fm l1 = process_all fm l2.
Proof.
  intros H.
  pose proof (simple_process_all_max fm l1) as H1.
  pose proof (simple_process_all_max fm l2) as H2.
  rewrite (running_max_same_set _ l1 l2 _ H) in H1.
  destruct (process_all fm l1), (process_all fm l2). simpl in *. congruence.
Qed.

End Simple.

(** * FlajoletMartinMultiple: processing *)

Section Grouped.

Variable mmh3_hash128 : string -> Z -> Z.
Variable randint : nat -> Z.

Import FlajoletMartinMultiple.

Local Abbreviation process := (FlajoletMartinMultiple.process mmh3_hash128).
Local Abbreviation process_cell := (FlajoletMartinMultiple.process_cell mmh3_hash128).
Local Abbreviation process_all := (FlajoletMartinMultiple.process_all mmh3_hash128).
Local Abbreviation __init__ := (FlajoletMartinMultiple.__init__ randint).
Local Abbreviation tail_at := (cell_tail mmh3_hash128).
Local Abbreviation absorb := (absorbed mmh3_hash128).

Lemma set_max_tail_length_id (self : t) :
  set_max_tail_length self (max_tail_length self) = self.
Proof. now destruct self. Qed.

(** ** Monotonicity, on every state *)

Lemma cells_le_refl (m : list (list nat)) : cells_le m m.
Proof.
  unfold cells_le. apply Forall_Forall2_diag, Forall_forall. intros row _.
  apply Forall_Forall2_diag, Forall_forall. intros; lia.
Qed.

Lemma cells_le_trans (m1 m2 m3 : list (list nat)) :
  cells_le m1 m2 -> cells_le m2 m3 -> cells_le m1 m3.
Proof.
  unfold cells_le. intros H12 H23.
  eapply Forall2_trans; [| exact H12 | exact H23].
  intros r1 r2 r3 Ha Hb.
  eapply Forall2_trans; [| exact Ha | exact Hb].
  intros; lia.
Qed.

Lemma row_le_insert (row : list nat) (j old new : nat) :
  row !! j = Some old -> (old <= new)%nat -> Forall2 le row (<[j := new]> row).
Proof.
  intros Hj Hle.
  rewrite <- (list_insert_id row j old Hj) at 1.
  apply Forall2_insert; [|exact Hle].
  apply Forall_Forall2_diag, Forall_forall. intros; lia.
Qed.

Lemma cells_le_insert (m : list (list nat)) (g : nat) (row row' : list nat) :
  m !! g = Some row -> Forall2 le row row' -> cells_le m (<[g := row']> m).
Proof.
  intros Hg Hle. unfold cells_le.
  rewrite <- (list_insert_id m g row Hg) at 1.
  apply Forall2_insert; [apply cells_le_refl | exact Hle].
Qed.

Lemma process_cell_monotone (value : string) (group i : Z) (self : t) :
  cells_le (max_tail_length self)
           (max_tail_length (snd (process_cell value group i self))).
Proof.
  unfold FlajoletMartinMultiple.process_cell.
  destruct (getitem (seeds self) _) as [seed|e]; simpl; [|apply cells_le_refl].
  destruct (getitem (max_tail_length self) group) as [row|e] eqn:Hrow; simpl;
    [|apply cells_le_refl].
  destruct (getitem row i) as [old|e] eqn:Hold; simpl; [|apply cells_le_refl].
  destruct (setitem row i _) as [row'|e] eqn:Hrow'; simpl; [|apply cells_le_refl].
  destruct (setitem (max_tail_length self) group row') as [m|e] eqn:Hm; simpl;
    [|apply cells_le_refl].
  apply getitem_ok in Hrow as (g & Hg & Hrow).
  apply getitem_ok in Hold as (j & Hj & Hold).
  apply setitem_ok in Hrow' as (j' & Hj' & ->).
  apply setitem_ok in Hm as (g' & Hg' & ->).
  assert (j' = j) as -> by congruence.
  assert (g' = g) as -> by congruence.
  eapply cells_le_insert; [exact Hrow|].
  eapply row_le_insert; [exact Hold | lia].
Qed.

#[local] Hint Resolve cells_le_refl cells_le_trans process_cell_monotone : sketch.

Lemma process_monotone (value : string) (self : t) :
  cells_le (max_tail_length self) (max_tail_length (snd (process value self))).
Proof.
  unfold FlajoletMartinMultiple.process.
  apply (for_each_preserves
           (fun s s' => cells_le (max_tail_length s) (max_tail_length s')));
    eauto with sketch.
  intros group s.
  apply (for_each_preserves
           (fun s s' => cells_le (max_tail_length s) (max_tail_length s')));
    eauto with sketch.
Qed.

(** ** The effect of [process] on a well-formed instance *)

Lemma process_cell_step (value : string) (self0 : t) (rows' : list (list nat))
    (g j : nat) (l' : list nat) (x : nat) :
  (j < Z.to_nat (hashes_per_group self0))%nat ->
  (g * Z.to_nat (hashes_per_group self0) + j < length (seeds self0))%nat ->
  (g < length rows')%nat ->
  l' !! j = Some x ->
  process_cell value (Z.of_nat g) (Z.of_nat j)
    (set_max_tail_length self0 (<[g := l']> rows'))
  = (Ok tt,
     set_max_tail_length self0
       (<[g := <[j := Nat.max x (tail_at self0 value g j)]> l']> rows')).
Proof.
  intros Hj Hseed Hg Hx.
  unfold FlajoletMartinMultiple.process_cell, cell_tail. simpl.
  replace (Z.of_nat g * hashes_per_group self0 + Z.of_nat j)
    with (Z.of_nat (g * Z.to_nat (hashes_per_group self0) + j))
    by (rewrite Nat2Z.inj_add, Nat2Z.inj_mul, Z2Nat.id; lia).
  destruct (lookup_lt_is_Some_2 (seeds self0)
              (g * Z.to_nat (hashes_per_group self0) + j)) as [seed Hs]; [lia|].
  rewrite (getitem_nat _ _ _ Hs). simpl.
  rewrite (getitem_nat _ g l') by (apply list_lookup_insert_eq; lia). simpl.
  rewrite (getitem_nat _ _ _ Hx). simpl.
  rewrite setitem_nat by (eapply lookup_lt_Some; eassumption). simpl.
  rewrite setitem_nat by (rewrite length_insert; lia). simpl.
  rewrite list_insert_insert_eq, Hs. reflexivity.
Qed.

Lemma process_row (value : string) (self0 : t) (rows' : list (list nat))
    (g : nat) (row : list nat) :
  length row = Z.to_nat (hashes_per_group self0) ->
  (S g * Z.to_nat (hashes_per_group self0) <= length (seeds self0))%nat ->
  (g < length rows')%nat ->
  for_each (range (hashes_per_group self0)) (process_cell value (Z.of_nat g))
    (set_max_tail_length self0 (<[g := row]> rows'))
  = (Ok tt,
     set_max_tail_length self0
       (<[g := imap (fun i old => Nat.max old (tail_at self0 value g i)) row]> rows')).
Proof.
  intros Hlen Hseeds Hg.
  replace (range (hashes_per_group self0)) with (range (Z.of_nat (length row)))
    by (unfold range; now rewrite Nat2Z.id, Hlen).
  apply (for_each_imap
           (fun l' => set_max_tail_length self0 (<[g := l']> rows'))
           (fun i old => Nat.max old (tail_at self0 value g i))).
  intros j x l' Hl' Hx _.
  apply process_cell_step; try assumption.
  - apply lookup_lt_Some in Hx. lia.
  - apply lookup_lt_Some in Hx. nia.
Qed.

Lemma process_closed (value : string) (self : t) :
  well_formed self ->
  process value self
  = (Ok tt, set_max_tail_length self (absorb self [value])).
Proof.
  intros [Hrows Hcols Hseeds Hphi].
  unfold FlajoletMartinMultiple.process, absorbed.
  replace (range (num_groups self))
    with (range (Z.of_nat (length (max_tail_length self))))
    by (unfold range; now rewrite Nat2Z.id, Hrows).
  rewrite <- (set_max_tail_length_id self) at 2.
  apply (for_each_imap (set_max_tail_length self)
           (fun g row => imap (fun i old => Nat.max old (tail_at self value g i)) row)).
  intros g row rows' Hlen Hrow' Hrow.
  pose proof Hrow' as Hg'. apply lookup_lt_Some in Hg'.
  pose proof (proj1 (Forall_lookup _ _) Hcols g row Hrow) as Hk. simpl in Hk.
  assert (Hs : (S g * Z.to_nat (hashes_per_group self) <= length (seeds self))%nat)
    by nia.
  pose proof (process_row value self rows' g row Hk Hs Hg') as Hstep.
  rewrite (list_insert_id rows' g row Hrow') in Hstep.
  exact Hstep.
Qed.

(** Two matrices obtained cell by cell from the matrix of [self] are equal
    when they agree on every cell [old] at row [g] and column [i]. *)
Ltac cellwise self :=
  unfold absorbed; simpl; apply list_eq; intros g; rewrite ?list_lookup_imap;
  destruct (max_tail_length self !! g) as [row|]; simpl; [|reflexivity];
  f_equal; apply list_eq; intros i; rewrite ?list_lookup_imap;
  destruct (row !! i) as [old|]; simpl; [|reflexivity]; f_equal.

Lemma absorbed_nil (self : t) : absorb self [] = max_tail_length self.
Proof. cellwise self. Qed.

Lemma absorbed_cons (self : t) (value : string) (stream : list string) :
  absorb (set_max_tail_length self (absorb self [value])) stream
  = absorb self (value :: stream).
Proof. cellwise self. Qed.

Lemma absorbed_same_set (self : t) (l1 l2 : list string) :
  (forall x, In x l1 <-> In x l2) -> absorb self l1 = absorb self l2.
Proof. intros H. cellwise self. now apply running_max_same_set. Qed.

Lemma absorbed_length (self : t) (stream : list string) :
  length (absorb self stream) = length (max_tail_length self).
Proof. unfold absorbed. apply length_imap. Qed.

Lemma absorbed_well_formed (self : t) (stream : list string) :
  well_formed self ->
  well_formed (set_max_tail_length self (absorb self stream)).
Proof.
  intros [Hrows Hcols Hseeds Hphi]. split; simpl; try assumption.
  - now rewrite absorbed_length.
  - apply Forall_lookup. intros g row' Hg. unfold absorbed in Hg.
    rewrite list_lookup_imap in Hg.
    destruct (max_tail_length self !! g) as [row|] eqn:E; simpl in Hg; [|discriminate].
    injection Hg as <-. rewrite length_imap.
    exact (proj1 (Forall_lookup _ _) Hcols g row E).
Qed.

Lemma process_all_closed (stream : list string) (self : t) :
  well_formed self ->
  process_all stream self
  = (Ok tt, set_max_tail_length self (absorb self stream)).
Proof.
  revert self. induction stream as [|value stream IH]; intros self Hwf.
  - simpl. unfold ret. now rewrite absorbed_nil, set_max_tail_length_id.
  - unfold FlajoletMartinMultiple.process_all in *. simpl. unfold seq_bind.
    rewrite (process_closed value self Hwf).
    rewrite IH by now apply absorbed_well_formed.
    now rewrite absorbed_cons.
Qed.

Lemma init_well_formed (n k : Z) : well_formed (__init__ n k).
Proof.
  split; simpl.
  - unfold range. now rewrite !length_fmap, length_seq.
  - apply Forall_fmap, Forall_forall. intros x _. simpl. apply length_replicate.
  - rewrite length_fmap, length_seq.
    destruct (Z_le_gt_dec n 0); [replace (Z.to_nat n) with O by lia; lia|].
    destruct (Z_le_gt_dec k 0); [replace (Z.to_nat k) with O by lia; lia|].
    rewrite Z2Nat.inj_mul by lia. lia.
  - reflexivity.
Qed.

(** ** Instances reached from [__init__] *)

(** With a 128-bit hash, whatever stream a constructed instance has
    processed, it is well formed and its cells are at most 128. *)
Lemma processed_instance_bounded (n k : Z) (stream : list string) :
  (forall value seed, 0 <= mmh3_hash128 value seed < 2 ^ 128) ->
  let self := snd (process_all stream (__init__ n k)) in
  well_formed self /\ cells_within_width (max_tail_length self).
Proof.
  intros Hrange self. subst self.
  rewrite process_all_closed by apply init_well_formed.
  split; [apply absorbed_well_formed, init_well_formed|].
  simpl. unfold cells_within_width, absorbed.
  apply Forall_lookup. intros g row' Hg.
  rewrite list_lookup_imap in Hg.
  destruct (max_tail_length (__init__ n k) !! g) as [row|] eqn:Hrow;
    simpl in Hg; [|discriminate].
  injection Hg as <-.
  apply Forall_lookup. intros i x Hi.
  rewrite list_lookup_imap in Hi.
  destruct (row !! i) as [old|] eqn:Hold; simpl in Hi; [|discriminate].
  injection Hi as <-.
  assert (Hzero : old = 0%nat).
  { simpl in Hrow. rewrite list_lookup_fmap in Hrow.
    destruct (range n !! g); simpl in Hrow; [|discriminate].
    injection Hrow as <-. now apply lookup_replicate in Hold as [-> _]. }
  subst old.
  apply running_max_bound; [unfold hash_width; lia|].
  intros value _. unfold cell_tail.
  pose proof (tail_length_bound 128 _ ltac:(lia) (Hrange value
    (default 0 (seeds (__init__ n k)
       !! (g * Z.to_nat (hashes_per_group (__init__ n k)) + i)%nat)))) as Hb.
  unfold hash_width. lia.
Qed.

End Grouped.

(** * FlajoletMartinMultiple: the estimate *)

Section GroupedEstimate.

Import FlajoletMartinMultiple.

Lemma insert_nat_perm (x : nat) (l : list nat) :
  Permutation (x :: l) (insert_nat x l).
Proof.
  induction l as [|y l IH]; simpl; [reflexivity|].
  destruct (y <? x)%nat; [|reflexivity].
  rewrite perm_swap. now apply perm_skip.
Qed.

Lemma sort_nat_perm (l : list nat) : Permutation l (sort_nat l).
Proof.
  induction l as [|x l IH]; simpl; [reflexivity|].
  rewrite <- insert_nat_perm. now apply perm_skip.
Qed.

Lemma insert_nat_sorted (x : nat) (l : list nat) :
  Sorted le l -> Sorted le (insert_nat x l).
Proof.
  induction l as [|y l IH]; intros Hs; simpl.
  - repeat constructor.
  - inversion Hs as [|? ? Hs' Hhd]; subst.
    destruct (Nat.ltb_spec y x) as [Hlt|Hge].
    + constructor; [now apply IH|].
      destruct l as [|z l]; simpl.
      * constructor. lia.
      * destruct (z <? x)%nat; constructor; [|lia].
        now inversion Hhd.
    + constructor; [assumption|]. now constructor.
Qed.

Lemma sort_nat_sorted (l : list nat) : Sorted le (sort_nat l).
Proof.
  induction l as [|x l IH]; simpl; [constructor|]. now apply insert_nat_sorted.
Qed.

Lemma sort_nat_length (l : list nat) : length (sort_nat l) = length l.
Proof. symmetry. apply Permutation_length, sort_nat_perm. Qed.

Lemma insert_sorted_corrected (x : nat) (l : list nat) :
  insert_sorted (corrected_estimate x) (corrected_estimate <$> l)
  = corrected_estimate <$> insert_nat x l.
Proof.
  induction l as [|y l IH]; simpl; [reflexivity|].
  rewrite corrected_estimate_lt.
  destruct (y <? x)%nat; simpl; [|reflexivity].
  f_equal. exact IH.
Qed.

(** Sorting the corrected estimates sorts the tail lengths. *)
Lemma sorted_corrected (l : list nat) :
  sorted (corrected_estimate <$> l) = corrected_estimate <$> sort_nat l.
Proof.
  induction l as [|x l IH]; [reflexivity|].
  change (sorted (corrected_estimate <$> x :: l))
    with (insert_sorted (corrected_estimate x) (sorted (corrected_estimate <$> l))).
  rewrite IH. apply insert_sorted_corrected.
Qed.

Lemma comprehension_corrected (group : list nat) :
  Forall (fun r => (r <= max_exponent)%nat) group ->
  comprehension (fun r => int_truediv_float (2 ^ Z.of_nat r) Globals.phi) group
  = Ok (corrected_estimate <$> group).
Proof.
  induction 1 as [|r group Hr _ IH]; simpl; [reflexivity|].
  now rewrite (corrected_estimate_div r Hr), IH.
Qed.

Lemma group_median_closed (self : t) (group : list nat) :
  phi self = Globals.phi ->
  group <> [] ->
  Forall (fun r => (r <= max_exponent)%nat) group ->
  exists r,
    sort_nat group !! (length group / 2)%nat = Some r /\
    r ∈ group /\
    (r <= max_exponent)%nat /\
    group_median self group = Ok (corrected_estimate r).
Proof.
  intros Hphi Hne Hb.
  assert (Hlen : (0 < length group)%nat) by (destruct group; simpl; [congruence | lia]).
  destruct (lookup_lt_is_Some_2 (sort_nat group) (length group / 2)%nat) as [r Hr].
  { rewrite sort_nat_length. apply Nat.div_lt; lia. }
  assert (Hin : r ∈ group).
  { rewrite (sort_nat_perm group). eapply list_elem_of_lookup_2; eassumption. }
  exists r. split; [exact Hr|]. split; [exact Hin|]. split.
  - rewrite Forall_forall in Hb. auto.
  - unfold group_median. rewrite Hphi, (comprehension_corrected group Hb). simpl.
    rewrite sorted_corrected. unfold len.
    rewrite length_fmap, sort_nat_length.
    change 2 with (Z.of_nat 2). rewrite <- Nat2Z.inj_div.
    apply getitem_nat. now rewrite list_lookup_fmap, Hr.
Qed.

Lemma group_medians_closed (self : t) (rows : list (list nat)) :
  phi self = Globals.phi ->
  Forall (fun row => row <> []) rows ->
  cells_bounded rows ->
  exists medians,
    comprehension (group_median self) rows = Ok medians /\
    Forall2 (fun group median =>
               exists r, sort_nat group !! (length group / 2)%nat = Some r /\
                         r ∈ group /\
                         (r <= max_exponent)%nat /\
                         median = corrected_estimate r)
            rows medians.
Proof.
  intros Hphi Hne Hb. unfold cells_bounded in Hb.
  induction rows as [|group rows IH]; simpl.
  - exists []. split; [reflexivity | constructor].
  - inversion Hne as [|? ? Hg Hne']; subst. inversion Hb as [|? ? Hbg Hb']; subst.
    destruct (IH Hne' Hb') as (medians & Hm & Hall).
    destruct (group_median_closed self group Hphi Hg Hbg) as (r & Hr & Hin & Hle & Hmed).
    exists (corrected_estimate r :: medians). split.
    + now rewrite Hmed, Hm.
    + constructor; [|exact Hall]. exists r. auto.
Qed.

Lemma within_width_bounded (m : list (list nat)) :
  cells_within_width m -> cells_bounded m.
Proof.
  unfold cells_within_width, cells_bounded. intros H.
  eapply Forall_impl; [exact H|]. intros row Hrow.
  eapply Forall_impl; [exact Hrow|]. intros r Hr.
  unfold hash_width, max_exponent in *. simpl in *. lia.
Qed.

Lemma rows_nonempty (self : t) :
  well_formed self -> 0 < hashes_per_group self ->
  Forall (fun row => row <> []) (max_tail_length self).
Proof.
  intros [_ Hcols _ _] Hk. eapply Forall_impl; [exact Hcols|].
  intros row Hlen ->. simpl in Hlen. lia.
Qed.

Lemma estimate_single_median (self : t) (r : nat) :
  group_medians self = Ok [corrected_estimate r] ->
  (r <= max_exponent)%nat ->
  estimate_cardinality self = int_of_float (corrected_estimate r).
Proof.
  intros Hm Hr. unfold estimate_cardinality. rewrite Hm. cbn [bind].
  change (len [corrected_estimate r]) with 1.
  now rewrite (corrected_estimate_mean r Hr).
Qed.

Lemma corrected_closed (r : nat) :
  (r <= max_exponent)%nat ->
  FlajoletMartinSimple.corrected (2 ^ Z.of_nat r) = int_of_float (corrected_estimate r).
Proof.
  intros Hr. unfold FlajoletMartinSimple.corrected.
  now rewrite (corrected_estimate_div r Hr).
Qed.

End GroupedEstimate.

(** * BloomFilter *)

Section Bloom.

Variable mmh3_hash64 : string -> Z -> Z * Z.

Import BloomFilter.

Local Abbreviation _hashes := (BloomFilter._hashes mmh3_hash64).
Local Abbreviation add := (BloomFilter.add mmh3_hash64).
Local Abbreviation add_all := (BloomFilter.add_all mmh3_hash64).
Local Abbreviation query := (BloomFilter.query mmh3_hash64).

Lemma bits_le_refl (b : list bool) : bits_le b b.
Proof.
  apply Forall_Forall2_diag, Forall_forall. intros [] _; simpl; auto.
Qed.

Lemma bits_le_trans (b1 b2 b3 : list bool) :
  bits_le b1 b2 -> bits_le b2 b3 -> bits_le b1 b3.
Proof.
  unfold bits_le. intros H12 H23.
  eapply Forall2_trans; [| exact H12 | exact H23].
  intros [] [] []; simpl; auto; discriminate.
Qed.

Lemma bits_le_set (b : list bool) (j : nat) : bits_le b (<[j := true]> b).
Proof.
  unfold bits_le. revert j. induction b as [|x b IH]; intros j; [constructor|].
  destruct j as [|j]; simpl.
  - constructor; [destruct x; simpl; auto | apply bits_le_refl].
  - constructor; [destruct x; simpl; auto | apply IH].
Qed.

Lemma bits_le_lookup (b1 b2 : list bool) (j : nat) :
  bits_le b1 b2 -> b1 !! j = Some true -> b2 !! j = Some true.
Proof.
  intros Hle Hj.
  destruct (Forall2_lookup_l _ _ _ _ _ Hle Hj) as (y & Hy & Hxy).
  simpl in Hxy. now subst.
Qed.

Lemma bits_le_length (b1 b2 : list bool) :
  bits_le b1 b2 -> length b1 = length b2.
Proof. apply Forall2_length. Qed.

#[local] Hint Resolve bits_le_refl bits_le_trans : sketch.

(** ** Monotonicity, on every state *)

Lemma set_bit_monotone (hash_val : Z) (self : t) :
  bits_le (bit_array self) (bit_array (snd (set_bit hash_val self))).
Proof.
  unfold set_bit.
  destruct (setitem (bit_array self) hash_val true) as [b|e] eqn:E; simpl.
  - apply setitem_ok in E as (j & _ & ->). apply bits_le_set.
  - apply bits_le_refl.
Qed.

Lemma add_monotone (value : string) (self : t) :
  bits_le (bit_array self) (bit_array (snd (add value self))).
Proof.
  unfold BloomFilter.add, seq_bind.
  destruct (_hashes self value) as [hs|e]; simpl; [|apply bits_le_refl].
  apply (for_each_preserves (fun s s' => bits_le (bit_array s) (bit_array s')));
    eauto using set_bit_monotone with sketch.
Qed.

Lemma query_pure (value : string) (self : t) : snd (query value self) = self.
Proof. reflexivity. Qed.

(** ** Indices *)

Lemma hashes_in_range (self : t) (value : string) :
  0 < size self ->
  exists hs,
    _hashes self value = Ok hs /\
    length hs = Z.to_nat (hash_count self) /\
    Forall (fun h => 0 <= h < size self) hs.
Proof.
  intros Hsize. unfold BloomFilter._hashes.
  assert (Hlen : length (range (hash_count self)) = Z.to_nat (hash_count self))
    by (unfold range; now rewrite length_fmap, length_seq).
  rewrite <- Hlen. generalize (range (hash_count self)) as l.
  induction l as [|i l (hs & Hhs & Hl & Hall)]; simpl.
  - exists []. repeat split; constructor.
  - unfold mod_ at 1. destruct (Z.eqb_spec (size self) 0) as [|_]; [lia|].
    simpl. rewrite Hhs. simpl. eexists. split; [reflexivity|]. split.
    + simpl. now rewrite Hl.
    + constructor; [|exact Hall]. apply Z.mod_pos_bound. lia.
Qed.

(** ** [add] and [query] on a valid filter *)

Lemma set_bits_ok (hs : list Z) (self : t) :
  Forall (fun h => 0 <= h < len (bit_array self)) hs ->
  exists b',
    for_each hs set_bit self = (Ok tt, set_bit_array self b') /\
    bits_le (bit_array self) b' /\
    Forall (fun h => b' !! Z.to_nat h = Some true) hs.
Proof.
  revert self. induction hs as [|h hs IH]; intros self Hall.
  - exists (bit_array self). simpl. unfold ret. destruct self; simpl.
    repeat split; [apply bits_le_refl | constructor].
  - inversion Hall as [|? ? Hh Hall']; subst. unfold len in *.
    destruct (IH (set_bit_array self (<[Z.to_nat h := true]> (bit_array self))))
      as (b' & Hrun & Hle & Hset).
    { simpl. rewrite length_insert. exact Hall'. }
    exists b'. simpl in *. unfold seq_bind, set_bit at 1, setitem.
    rewrite norm_index_range by exact Hh. simpl. rewrite Hrun.
    split; [reflexivity|]. split.
    + eapply bits_le_trans; [apply bits_le_set | exact Hle].
    + constructor; [|exact Hset].
      eapply bits_le_lookup; [exact Hle|].
      apply list_lookup_insert_eq. lia.
Qed.

Lemma add_ok (value : string) (self : t) :
  bloom_valid self -> 0 < size self ->
  exists hs b',
    _hashes self value = Ok hs /\
    add value self = (Ok tt, set_bit_array self b') /\
    bits_le (bit_array self) b' /\
    Forall (fun h => 0 <= h < size self /\ b' !! Z.to_nat h = Some true) hs.
Proof.
  intros Hvalid Hsize.
  destruct (hashes_in_range self value Hsize) as (hs & Hhs & _ & Hrange).
  destruct (set_bits_ok hs self) as (b' & Hrun & Hle & Hset).
  { unfold bloom_valid in Hvalid. now rewrite Hvalid. }
  exists hs, b'. split; [exact Hhs|]. split; [|split; [exact Hle|]].
  - unfold BloomFilter.add, seq_bind. rewrite Hhs. exact Hrun.
  - rewrite Forall_forall in *. auto.
Qed.

Lemma set_bit_array_valid (self : t) (b' : list bool) :
  bloom_valid self -> bits_le (bit_array self) b' ->
  bloom_valid (set_bit_array self b').
Proof.
  unfold bloom_valid, len. simpl. intros <- Hle.
  now rewrite (bits_le_length _ _ Hle).
Qed.

Lemma add_all_ok (stream : list string) (self : t) :
  bloom_valid self -> 0 < size self ->
  exists b',
    add_all stream self = (Ok tt, set_bit_array self b') /\
    bits_le (bit_array self) b'.
Proof.
  intros Hvalid Hsize. revert self Hvalid Hsize.
  induction stream as [|value stream IH]; intros self Hvalid Hsize.
  - exists (bit_array self). split; [|apply bits_le_refl].
    unfold BloomFilter.add_all. simpl. unfold ret. now destruct self.
  - destruct (add_ok value self Hvalid Hsize) as (hs & b1 & _ & Hadd & Hle1 & _).
    destruct (IH (set_bit_array self b1)) as (b2 & Hrun & Hle2).
    { now apply set_bit_array_valid. }
    { exact Hsize. }
    exists b2. split; [|eapply bits_le_trans; eassumption].
    unfold BloomFilter.add_all in *. simpl. unfold seq_bind.
    rewrite Hadd. exact Hrun.
Qed.

Lemma query_all_set (value : string) (self : t) (hs : list Z) :
  _hashes self value = Ok hs ->
  Forall (fun h => 0 <= h < len (bit_array self)
                   /\ bit_array self !! Z.to_nat h = Some true) hs ->
  query value self = (Ok true, self).
Proof.
  intros Hhs Hall. unfold BloomFilter.query. rewrite Hhs. simpl. f_equal.
  clear Hhs. induction Hall as [|h hs [Hh Hbit] _ IH]; simpl; [reflexivity|].
  rewrite <- (Z2Nat.id h) at 1 by lia.
  rewrite (getitem_nat _ _ _ Hbit). simpl. exact IH.
Qed.

Lemma query_total (value : string) (self : t) :
  bloom_valid self -> 0 < size self ->
  exists b, query value self = (Ok b, self).
Proof.
  intros Hvalid Hsize.
  destruct (hashes_in_range self value Hsize) as (hs & Hhs & _ & Hrange).
  unfold BloomFilter.query. rewrite Hhs. simpl.
  unfold bloom_valid in Hvalid. rewrite <- Hvalid in Hrange. clear Hhs.
  induction Hrange as [|h hs Hh _ [b IH]]; simpl; [eauto|].
  destruct (getitem_total (bit_array self) h Hh) as [[] ->]; simpl; eauto.
Qed.

Lemma init_valid (m k : Z) :
  0 <= m ->
  exists bf,
    __init__ m k = Ok bf /\ bloom_valid bf /\ size bf = m /\ hash_count bf = k /\
    bit_array bf = replicate (Z.to_nat m) false.
Proof.
  intros Hm. unfold __init__, bitarray.
  destruct (Z.ltb_spec m 0) as [|_]; [lia|]. simpl.
  eexists. split; [reflexivity|]. unfold bloom_valid, len, setall. simpl.
  rewrite length_fmap, length_replicate, fmap_replicate.
  repeat split. lia.
Qed.

End Bloom.

(** ** The runs recorded in the notebook

    The model reproduces the outputs of [count_distinct.ipynb]: the simple
    estimate 1048576 and its corrected form 1355607, and for the grouped
    sketch the medians the notebook prints,
    [[1355607.55...] * 4 + [2711215.11...]], and the estimate 1626729. *)
Lemma recorded_runs :
  FlajoletMartinSimple.estimate_cardinality
    {| FlajoletMartinSimple.max_tail_length := 20 |} = 1048576 /\
  FlajoletMartinSimple.corrected 1048576 = Ok 1355607 /\
  FlajoletMartinMultiple.group_medians recorded_instance
  = Ok [corrected_estimate 20; corrected_estimate 20; corrected_estimate 20;
        corrected_estimate 20; corrected_estimate 21] /\
  FlajoletMartinMultiple.estimate_cardinality recorded_instance = Ok 1626729.
Proof. vm_compute. repeat split. Qed.

(** * The claims *)

Section BloomClaims.

Variable mmh3_hash64 : string -> Z -> Z * Z.

(** C1: no false negatives.  On a filter constructed with a positive
    bitmap size (and any hash count), after any sequence of [add] calls
    that contains [x], [query x] returns [True]: right after the insertion
    of [x] and again after any further [add] calls; none of the calls
    raises. *)
Theorem bloom_no_false_negatives (m k : Z) (pre post : list string) (x : string) :
  0 < m ->
  exists bf s1 s2,
    BloomFilter.__init__ m k = Ok bf /\
    BloomFilter.add_all mmh3_hash64 (pre ++ [x]) bf = (Ok tt, s1) /\
    BloomFilter.query mmh3_hash64 x s1 = (Ok true, s1) /\
    BloomFilter.add_all mmh3_hash64 post s1 = (Ok tt, s2) /\
    BloomFilter.query mmh3_hash64 x s2 = (Ok true, s2).
Proof.
  intros Hm.
  destruct (init_valid m k) as (bf & Hinit & Hvalid & Hsize & _); [lia|].
  assert (Hpos : 0 < BloomFilter.size bf) by lia.
  destruct (add_all_ok mmh3_hash64 pre bf Hvalid Hpos) as (b0 & Hpre & Hle0).
  pose proof (set_bit_array_valid bf b0 Hvalid Hle0) as Hvalid0.
  destruct (add_ok mmh3_hash64 x _ Hvalid0 Hpos) as (hs & b1 & Hhs & Hadd & Hle1 & Hset).
  pose proof (set_bit_array_valid _ b1 Hvalid0 Hle1) as Hvalid1.
  destruct (add_all_ok mmh3_hash64 post _ Hvalid1 Hpos) as (b2 & Hpost & Hle2).
  pose proof (set_bit_array_valid _ b2 Hvalid1 Hle2) as Hvalid2.
  eexists bf, _, _. split; [exact Hinit|]. split; [|split; [|split; [exact Hpost|]]].
  - unfold BloomFilter.add_all in *. rewrite (for_each_app _ _ _ _ _ Hpre).
    simpl. unfold seq_bind. rewrite Hadd. reflexivity.
  - apply (query_all_set mmh3_hash64 x _ hs); [exact Hhs|].
    unfold bloom_valid in Hvalid1. rewrite Hvalid1.
    eapply Forall_impl; [exact Hset|]. simpl. tauto.
  - apply (query_all_set mmh3_hash64 x _ hs); [exact Hhs|].
    unfold bloom_valid in Hvalid2. rewrite Hvalid2.
    eapply Forall_impl; [exact Hset|]. simpl. intros h [Hh Hbit].
    split; [exact Hh|]. eapply bits_le_lookup; eassumption.
Qed.

(** C10: on a filter whose bit array has [size > 0] bits, the indices that
    [_hashes] produces, one per hash, all lie in [0, size), whatever the
    sign of the hash values; [add] and [query] then return without raising,
    and [add] leaves a filter of the same shape. *)
Theorem bloom_indices_in_range (self : BloomFilter.t) (value : string) :
  bloom_valid self ->
  0 < BloomFilter.size self ->
  (exists hs,
     BloomFilter._hashes mmh3_hash64 self value = Ok hs /\
     length hs = Z.to_nat (BloomFilter.hash_count self) /\
     Forall (fun h => 0 <= h < BloomFilter.size self) hs) /\
  (exists self',
     BloomFilter.add mmh3_hash64 value self = (Ok tt, self') /\
     bloom_valid self' /\
     BloomFilter.size self' = BloomFilter.size self /\
     BloomFilter.hash_count self' = BloomFilter.hash_count self) /\
  (exists b, BloomFilter.query mmh3_hash64 value self = (Ok b, self)).
Proof.
  intros Hvalid Hsize. split; [|split].
  - apply hashes_in_range. exact Hsize.
  - destruct (add_ok mmh3_hash64 value self Hvalid Hsize)
      as (hs & b' & _ & Hadd & Hle & _).
    eexists. split; [exact Hadd|]. split; [|split; reflexivity].
    now apply set_bit_array_valid.
  - apply query_total; assumption.
Qed.

End BloomClaims.

(** C1 on a filter of 8 bits and one hash. *)
Lemma bloom_no_false_negatives_witness :
  0 < 8 /\
  exists bf s1 s2,
    BloomFilter.__init__ 8 1 = Ok bf /\
    BloomFilter.add_all Reference.hash64 (["a"; "bb"]%string ++ ["ccc"]%string) bf
    = (Ok tt, s1) /\
    BloomFilter.query Reference.hash64 "ccc"%string s1 = (Ok true, s1) /\
    BloomFilter.add_all Reference.hash64 ["dddd"]%string s1 = (Ok tt, s2) /\
    BloomFilter.query Reference.hash64 "ccc"%string s2 = (Ok true, s2).
Proof.
  split; [lia|].
  apply (bloom_no_false_negatives Reference.hash64 8 1
           ["a"; "bb"]%string ["dddd"]%string "ccc"%string).
  lia.
Defined.

(** C10 on a filter of 8 bits and 3 hashes, with hash values of both
    signs. *)
Lemma bloom_indices_in_range_witness :
  let self := {| BloomFilter.size := 8;
                 BloomFilter.hash_count := 3;
                 BloomFilter.bit_array := replicate 8 false |} in
  (exists hs,
     BloomFilter._hashes Reference.hash64 self "ab"%string = Ok hs /\
     length hs = Z.to_nat (BloomFilter.hash_count self) /\
     Forall (fun h => 0 <= h < BloomFilter.size self) hs) /\
  (exists self',
     BloomFilter.add Reference.hash64 "ab"%string self = (Ok tt, self') /\
     bloom_valid self' /\
     BloomFilter.size self' = BloomFilter.size self /\
     BloomFilter.hash_count self' = BloomFilter.hash_count self) /\
  (exists b, BloomFilter.query Reference.hash64 "ab"%string self = (Ok b, self)).
Proof.
  apply (bloom_indices_in_range Reference.hash64); [reflexivity | simpl; lia].
Defined.

Section SimpleClaims.

Variable sha256 : string -> Z.

(** C7 (as the code has it): [estimate_cardinality] takes no flag.  In
    every state it returns exactly [2 ** max_tail_length]; after a stream
    that is 2 to the largest tail length seen (1 on the empty stream); a
    call that passes a flag raises [TypeError].  The corrected form is
    not computed by the class: the driver derives it from the returned
    value as [int(cardinality / phi)]. *)
Theorem simple_estimate_power_of_two (self : FlajoletMartinSimple.t) :
  let m := FlajoletMartinSimple.max_tail_length self in
  FlajoletMartinSimple.estimate_cardinality self = 2 ^ Z.of_nat m /\
  FlajoletMartinSimple.call_estimate_cardinality self [] = Ok (2 ^ Z.of_nat m) /\
  (forall flag : bool,
     FlajoletMartinSimple.call_estimate_cardinality self [flag] = Raise TypeError) /\
  (forall stream : list string,
     FlajoletMartinSimple.estimate_cardinality
       (FlajoletMartinSimple.process_all sha256 self stream)
     = 2 ^ Z.of_nat (running_max (fun value => tail_length (sha256 value)) stream m)) /\
  FlajoletMartinSimple.corrected (FlajoletMartinSimple.estimate_cardinality self)
  = (let* x := int_truediv_float (2 ^ Z.of_nat m) Globals.phi in int_of_float x).
Proof.
  repeat split.
  intros stream. unfold FlajoletMartinSimple.estimate_cardinality.
  now rewrite simple_process_all_max.
Qed.

End SimpleClaims.

(** C7 as stated fails after the one-element stream ["aaaa"], whose
    reference hash 4 has tail length 2: a call with a flag raises, and the
    only value the method returns is 4, not the corrected 5. *)
Lemma simple_estimate_has_no_flag :
  let fm := FlajoletMartinSimple.process_all Reference.sha256
              FlajoletMartinSimple.__init__ ["aaaa"%string] in
  FlajoletMartinSimple.max_tail_length fm = 2%nat /\
  FlajoletMartinSimple.call_estimate_cardinality fm [false] = Raise TypeError /\
  FlajoletMartinSimple.call_estimate_cardinality fm [true] = Raise TypeError /\
  FlajoletMartinSimple.estimate_cardinality fm = 4 /\
  FlajoletMartinSimple.corrected 4 = Ok 5.
Proof. vm_compute. repeat split. Qed.

Section GroupedClaims.

Import FlajoletMartinMultiple.



End GroupedClaims.





Section ConstructionClaims.

Variable randint : nat -> Z.

(** C5 (as the code has it): the constructors validate nothing.
    [FlajoletMartinMultiple.__init__] succeeds for every pair of integers,
    stores them unchanged and builds [max(num_groups, 0)] rows of
    [max(hashes_per_group, 0)] zero cells; [BloomFilter.__init__] stores its
    parameters unchanged and builds [bitmap_size] cleared bits for every
    [bitmap_size >= 0] and every [hash_count]; a negative [bitmap_size] is
    the only rejected value, by the [ValueError] of [bitarray]. *)
Theorem construction_accepts_parameters (n k m c : Z) :
  let fm := FlajoletMartinMultiple.__init__ randint n k in
  FlajoletMartinMultiple.num_groups fm = n /\
  FlajoletMartinMultiple.hashes_per_group fm = k /\
  FlajoletMartinMultiple.num_hashes fm = n * k /\
  FlajoletMartinMultiple.max_tail_length fm
  = replicate (Z.to_nat n) (replicate (Z.to_nat k) 0%nat) /\
  length (FlajoletMartinMultiple.seeds fm) = Z.to_nat (n * k) /\
  well_formed fm /\
  BloomFilter.__init__ m c
  = if m <? 0 then Raise ValueError
    else Ok {| BloomFilter.size := m;
               BloomFilter.hash_count := c;
               BloomFilter.bit_array := replicate (Z.to_nat m) false |}.
Proof.
  repeat split.
  - simpl. now rewrite fmap_const_replicate, range_length.
  - simpl. now rewrite length_fmap, length_seq.
  - apply (wf_rows _ (init_well_formed randint n k)).
  - apply (wf_cols _ (init_well_formed randint n k)).
  - apply (wf_seeds _ (init_well_formed randint n k)).
  - unfold BloomFilter.__init__, BloomFilter.bitarray.
    destruct (m <? 0); simpl; [reflexivity|].
    unfold BloomFilter.setall. now rewrite fmap_replicate.
Qed.

End ConstructionClaims.

(** C5 as stated fails: non-positive parameters are accepted without an
    error and kept as given. *)
Lemma non_positive_parameters_accepted :
  FlajoletMartinMultiple.__init__ Reference.randint 0 5
  = {| FlajoletMartinMultiple.num_groups := 0;
       FlajoletMartinMultiple.hashes_per_group := 5;
       FlajoletMartinMultiple.num_hashes := 0;
       FlajoletMartinMultiple.max_tail_length := [];
       FlajoletMartinMultiple.seeds := [];
       FlajoletMartinMultiple.phi := Globals.phi |} /\
  FlajoletMartinMultiple.__init__ Reference.randint 2 (-1)
  = {| FlajoletMartinMultiple.num_groups := 2;
       FlajoletMartinMultiple.hashes_per_group := -1;
       FlajoletMartinMultiple.num_hashes := -2;
       FlajoletMartinMultiple.max_tail_length := [[]; []];
       FlajoletMartinMultiple.seeds := [];
       FlajoletMartinMultiple.phi := Globals.phi |} /\
  BloomFilter.__init__ 0 3
  = Ok {| BloomFilter.size := 0;
          BloomFilter.hash_count := 3;
          BloomFilter.bit_array := [] |} /\
  BloomFilter.__init__ 4 (-2)
  = Ok {| BloomFilter.size := 4;
          BloomFilter.hash_count := -2;
          BloomFilter.bit_array := [false; false; false; false] |}.
Proof. repeat split. Qed.

(** What happens to such instances later, when they are used: the estimate
    of an instance without groups divides by zero, that of an instance with
    empty groups indexes an empty list, a filter of size 0 divides by zero
    in [add] and [query], and a filter without hashes answers [True] to
    every query. *)
Lemma degenerate_instances_in_use :
  FlajoletMartinMultiple.estimate_cardinality
    (FlajoletMartinMultiple.__init__ Reference.randint 0 5)
  = Raise ZeroDivisionError /\
  FlajoletMartinMultiple.estimate_cardinality
    (FlajoletMartinMultiple.__init__ Reference.randint 2 (-1))
  = Raise IndexError /\
  (forall bf, BloomFilter.__init__ 0 3 = Ok bf ->
     fst (BloomFilter.add Reference.hash64 "a"%string bf) = Raise ZeroDivisionError /\
     fst (BloomFilter.query Reference.hash64 "a"%string bf) = Raise ZeroDivisionError) /\
  (forall bf value, BloomFilter.__init__ 4 (-2) = Ok bf ->
     fst (BloomFilter.query Reference.hash64 value bf) = Ok true).
Proof.
  split; [reflexivity|]. split; [reflexivity|]. split.
  - intros bf [= <-]. split; reflexivity.
  - intros bf value [= <-]. reflexivity.
Qed.

Section AllClaims.

Variable sha256 : string -> Z.
Variable mmh3_hash128 : string -> Z -> Z.
Variable randint : nat -> Z.
Variable mmh3_hash64 : string -> Z -> Z * Z.

(** C3: every piece of sketch state is monotone.  [process] never decreases
    [max_tail_length] of the simple sketch; [process] of the grouped sketch
    keeps the shape of the matrix and decreases none of its cells, also when
    it raises part-way; [add] keeps the length of the bit array and clears
    none of its bits, also when it raises; [query] leaves the filter as it
    is. *)
Theorem sketch_state_monotone :
  (forall (fm : FlajoletMartinSimple.t) (value : string),
     (FlajoletMartinSimple.max_tail_length fm
      <= FlajoletMartinSimple.max_tail_length
           (FlajoletMartinSimple.process sha256 fm value))%nat) /\
  (forall (self : FlajoletMartinMultiple.t) (value : string),
     cells_le (FlajoletMartinMultiple.max_tail_length self)
              (FlajoletMartinMultiple.max_tail_length
                 (snd (FlajoletMartinMultiple.process mmh3_hash128 value self)))) /\
  (forall (self : BloomFilter.t) (value : string),
     bits_le (BloomFilter.bit_array self)
             (BloomFilter.bit_array (snd (BloomFilter.add mmh3_hash64 value self))) /\
     snd (BloomFilter.query mmh3_hash64 value self) = self).
Proof.
  split; [|split].
  - intros fm value. apply simple_process_monotone.
  - intros self value. apply process_monotone.
  - intros self value. split; [apply add_monotone | apply query_pure].
Qed.

(** Two orderings of one multiset have the same elements. *)
Lemma permutation_same_elements (l1 l2 : list string) :
  Permutation l1 l2 -> forall x, In x l1 <-> In x l2.
Proof.
  intros H x. split; apply Permutation_in; [exact H | now symmetry].
Qed.

(** C4: order invariance.  Two streams with the same set of elements (two
    orderings of one multiset, or one of them with duplicates fed again)
    leave a simple sketch, and a grouped sketch constructed with the same
    dimensions and seeds, in the same state, so [estimate_cardinality]
    returns the same value; the grouped sketch processes both without
    raising. *)
Theorem estimate_order_invariant (fm : FlajoletMartinSimple.t) (n k : Z)
    (l1 l2 : list string) :
  (forall x, In x l1 <-> In x l2) ->
  let grouped := FlajoletMartinMultiple.__init__ randint n k in
  FlajoletMartinSimple.estimate_cardinality
    (FlajoletMartinSimple.process_all sha256 fm l1)
  = FlajoletMartinSimple.estimate_cardinality
      (FlajoletMartinSimple.process_all sha256 fm l2) /\
  FlajoletMartinMultiple.process_all mmh3_hash128 l1 grouped
  = FlajoletMartinMultiple.process_all mmh3_hash128 l2 grouped /\
  fst (FlajoletMartinMultiple.process_all mmh3_hash128 l1 grouped) = Ok tt /\
  FlajoletMartinMultiple.estimate_cardinality
    (snd (FlajoletMartinMultiple.process_all mmh3_hash128 l1 grouped))
  = FlajoletMartinMultiple.estimate_cardinality
      (snd (FlajoletMartinMultiple.process_all mmh3_hash128 l2 grouped)).
Proof.
  intros Hset grouped.
  pose proof (init_well_formed randint n k) as Hwf. fold grouped in Hwf.
  assert (Hsame : FlajoletMartinMultiple.process_all mmh3_hash128 l1 grouped
                  = FlajoletMartinMultiple.process_all mmh3_hash128 l2 grouped).
  { rewrite !(process_all_closed mmh3_hash128) by exact Hwf.
    now rewrite (absorbed_same_set mmh3_hash128 grouped l1 l2 Hset). }
  split; [|split; [exact Hsame | split]].
  - now rewrite (simple_same_set sha256 fm l1 l2 Hset).
  - now rewrite (process_all_closed mmh3_hash128) by exact Hwf.
  - now rewrite Hsame.
Qed.

(** C9 (as the code has it): a grouped sketch of one group and one hash,
    whose seeded hash agrees on the stream with the hash of the simple
    sketch, holds in its only cell the maximum tail length the simple sketch
    holds; its estimate is not the simple estimate [2 ** r] but the corrected
    one, [int(2 ** r / phi)], the value the driver derives from the simple
    estimate. *)
Theorem degenerate_grouping_is_corrected_simple (stream : list string) :
  (forall v, In v stream -> mmh3_hash128 v (randint 0) = sha256 v) ->
  (forall v, In v stream -> 0 <= sha256 v < 2 ^ 256) ->
  let simple :=
    FlajoletMartinSimple.process_all sha256 FlajoletMartinSimple.__init__ stream in
  let run :=
    FlajoletMartinMultiple.process_all mmh3_hash128 stream
      (FlajoletMartinMultiple.__init__ randint 1 1) in
  fst run = Ok tt /\
  FlajoletMartinMultiple.max_tail_length (snd run)
  = [[FlajoletMartinSimple.max_tail_length simple]] /\
  FlajoletMartinMultiple.estimate_cardinality (snd run)
  = FlajoletMartinSimple.corrected (FlajoletMartinSimple.estimate_cardinality simple) /\
  exists e, FlajoletMartinMultiple.estimate_cardinality (snd run) = Ok e.
Proof.
  intros Hagree Hrange simple run.
  pose proof (init_well_formed randint 1 1) as Hwf.
  set (r := FlajoletMartinSimple.max_tail_length simple).
  assert (Hr : (r <= max_exponent)%nat).
  { subst r simple. rewrite simple_process_all_max.
    apply running_max_bound; [unfold max_exponent; simpl; lia|].
    intros v Hv. pose proof (tail_length_bound 256 (sha256 v)) as Hb.
    specialize (Hb ltac:(lia) (Hrange v Hv)). unfold max_exponent. lia. }
  assert (Hrows : FlajoletMartinMultiple.max_tail_length (snd run) = [[r]]).
  { subst run r simple. rewrite (process_all_closed mmh3_hash128) by exact Hwf.
    rewrite simple_process_all_max. simpl. unfold absorbed, cell_tail. simpl.
    do 2 f_equal. apply running_max_ext_in. intros v Hv.
    now rewrite (Hagree v Hv). }
  assert (Hmed : FlajoletMartinMultiple.group_medians (snd run)
                 = Ok [corrected_estimate r]).
  { unfold FlajoletMartinMultiple.group_medians. rewrite Hrows.
    destruct (group_medians_closed (snd run) [[r]]) as (medians & Hm & Hall).
    - subst run. now rewrite (process_all_closed mmh3_hash128) by exact Hwf.
    - apply List.Forall_cons; [discriminate | apply List.Forall_nil].
    - apply List.Forall_cons; [|apply List.Forall_nil].
      apply List.Forall_cons; [exact Hr | apply List.Forall_nil].
    - rewrite Hm. f_equal.
      inversion Hall as [|? m ? ms (r' & Hr' & _ & _ & ->) Hnil]; subst.
      inversion Hnil; subst. simpl in Hr'. now injection Hr' as ->. }
  split; [|split; [exact Hrows | split]].
  - subst run. now rewrite (process_all_closed mmh3_hash128) by exact Hwf.
  - rewrite (estimate_single_median _ r Hmed Hr).
    unfold FlajoletMartinSimple.estimate_cardinality. fold r.
    now rewrite (corrected_closed r Hr).
  - rewrite (estimate_single_median _ r Hmed Hr).
    destruct (corrected_estimate_int r) as (e & He & _). eauto.
Qed.

End AllClaims.

(** C4 on the stream ["a"; "b"; "a"; "c"] against its distinct elements in
    another order. *)
Lemma estimate_order_invariant_witness :
  let l1 := ["a"; "b"; "a"; "c"]%string in
  let l2 := ["c"; "b"; "a"]%string in
  (forall x, In x l1 <-> In x l2) /\
  let grouped := FlajoletMartinMultiple.__init__ Reference.randint 2 2 in
  FlajoletMartinSimple.estimate_cardinality
    (FlajoletMartinSimple.process_all Reference.sha256
       FlajoletMartinSimple.__init__ l1)
  = FlajoletMartinSimple.estimate_cardinality
      (FlajoletMartinSimple.process_all Reference.sha256
         FlajoletMartinSimple.__init__ l2) /\
  FlajoletMartinMultiple.process_all Reference.hash128 l1 grouped
  = FlajoletMartinMultiple.process_all Reference.hash128 l2 grouped /\
  fst (FlajoletMartinMultiple.process_all Reference.hash128 l1 grouped) = Ok tt /\
  FlajoletMartinMultiple.estimate_cardinality
    (snd (FlajoletMartinMultiple.process_all Reference.hash128 l1 grouped))
  = FlajoletMartinMultiple.estimate_cardinality
      (snd (FlajoletMartinMultiple.process_all Reference.hash128 l2 grouped)).
Proof.
  intros l1 l2.
  assert (H : forall x, In x l1 <-> In x l2) by (intros x; simpl; tauto).
  split; [exact H|].
  exact (estimate_order_invariant Reference.sha256 Reference.hash128
           Reference.randint FlajoletMartinSimple.__init__ 2 2 l1 l2 H).
Defined.

(** C9 on the stream ["aaaa"; "ab"] with the reference hashes, which agree
    at seed 0. *)
Lemma degenerate_grouping_is_corrected_simple_witness :
  let stream := ["aaaa"; "ab"]%string in
  (forall v, In v stream ->
     Reference.hash128 v (Reference.randint 0) = Reference.sha256 v) /\
  (forall v, In v stream -> 0 <= Reference.sha256 v < 2 ^ 256) /\
  let simple :=
    FlajoletMartinSimple.process_all Reference.sha256
      FlajoletMartinSimple.__init__ stream in
  let run :=
    FlajoletMartinMultiple.process_all Reference.hash128 stream
      (FlajoletMartinMultiple.__init__ Reference.randint 1 1) in
  fst run = Ok tt /\
  FlajoletMartinMultiple.max_tail_length (snd run)
  = [[FlajoletMartinSimple.max_tail_length simple]] /\
  FlajoletMartinMultiple.estimate_cardinality (snd run)
  = FlajoletMartinSimple.corrected (FlajoletMartinSimple.estimate_cardinality simple) /\
  exists e, FlajoletMartinMultiple.estimate_cardinality (snd run) = Ok e.
Proof.
  intros stream.
  assert (Hagree : forall v, In v stream ->
            Reference.hash128 v (Reference.randint 0) = Reference.sha256 v)
    by (intros v [<-|[<-|[]]]; reflexivity).
  assert (Hrange : forall v, In v stream -> 0 <= Reference.sha256 v < 2 ^ 256)
    by (intros v [<-|[<-|[]]]; split; (discriminate || reflexivity)).
  split; [exact Hagree|]. split; [exact Hrange|].
  exact (degenerate_grouping_is_corrected_simple Reference.sha256
           Reference.hash128 Reference.randint stream Hagree Hrange).
Defined.

(** C9 as stated fails on the one-element stream ["aaaa"]: the two sketches
    see the same hash value 4 and hold the same maximum tail length 2, yet
    the simple sketch returns 4 and the grouped one 5. *)
Lemma degenerate_grouping_differs_from_simple :
  let stream := ["aaaa"%string] in
  let simple :=
    FlajoletMartinSimple.process_all Reference.sha256
      FlajoletMartinSimple.__init__ stream in
  let grouped :=
    snd (FlajoletMartinMultiple.process_all Reference.hash128 stream
           (FlajoletMartinMultiple.__init__ Reference.randint 1 1)) in
  Reference.hash128 "aaaa"%string (Reference.randint 0) = 4 /\
  Reference.sha256 "aaaa"%string = 4 /\
  FlajoletMartinSimple.max_tail_length simple = 2%nat /\
  FlajoletMartinMultiple.max_tail_length grouped = [[2%nat]] /\
  FlajoletMartinSimple.estimate_cardinality simple = 4 /\
  FlajoletMartinMultiple.estimate_cardinality grouped = Ok 5.
Proof. vm_compute. repeat split. Qed.

(** * BloomFilter: the contents of the bit array *)

Section BloomContents.

Variable mmh3_hash64 : string -> Z -> Z * Z.

Import BloomFilter.

Local Abbreviation indices := (probe_indices mmh3_hash64).
Local Abbreviation hashes := (BloomFilter._hashes mmh3_hash64).
Local Abbreviation add1 := (BloomFilter.add mmh3_hash64).
Local Abbreviation add_stream := (BloomFilter.add_all mmh3_hash64).
Local Abbreviation ask := (BloomFilter.query mmh3_hash64).

Lemma hashes_exact (self : t) (value : string) :
  size self <> 0 -> hashes self value = Ok (indices self value).
Proof.
  intros Hsize. unfold BloomFilter._hashes, probe_indices.
  generalize (range (hash_count self)) as l.
  induction l as [|i l IH]; simpl; [reflexivity|].
  unfold mod_ at 1. destruct (Z.eqb_spec (size self) 0) as [|_]; [contradiction|].
  simpl. now rewrite IH.
Qed.

Lemma hashes_nonpos (self : t) (value : string) :
  hash_count self <= 0 -> hashes self value = Ok [].
Proof.
  intros Hk. unfold BloomFilter._hashes. now rewrite range_nonpos.
Qed.

Lemma range_pos (n : Z) : 0 < n -> exists l, range n = 0 :: l.
Proof.
  intros Hn. unfold range.
  destruct (Z.to_nat n) as [|m] eqn:E; [lia|]. simpl. eauto.
Qed.

Lemma hashes_zero_size (self : t) (value : string) :
  size self = 0 -> 0 < hash_count self ->
  hashes self value = Raise ZeroDivisionError.
Proof.
  intros Hsize Hk. unfold BloomFilter._hashes.
  destruct (range_pos _ Hk) as [l ->]. simpl.
  unfold mod_. now rewrite Hsize.
Qed.

Lemma probe_indices_range (self : t) (value : string) :
  0 < size self -> Forall (fun h => 0 <= h < size self) (indices self value).
Proof.
  intros Hsize. unfold probe_indices. apply Forall_fmap, Forall_forall.
  intros i _. simpl. apply Z.mod_pos_bound. exact Hsize.
Qed.

Lemma probe_indices_length (self : t) (value : string) :
  length (indices self value) = Z.to_nat (hash_count self).
Proof. unfold probe_indices. now rewrite length_fmap, range_length. Qed.

Lemma set_bits_length (b : list bool) (hs : list Z) :
  length (set_bits b hs) = length b.
Proof.
  revert b. induction hs as [|h hs IH]; intros b; simpl; [reflexivity|].
  unfold set_bits in *. simpl. now rewrite IH, length_insert.
Qed.

Lemma set_bits_app (b : list bool) (hs1 hs2 : list Z) :
  set_bits b (hs1 ++ hs2) = set_bits (set_bits b hs1) hs2.
Proof. unfold set_bits. apply fold_left_app. Qed.

(** The bits set afterwards are those set before and those at the
    indices. *)
Lemma set_bits_lookup (b : list bool) (hs : list Z) (j : nat) :
  Forall (fun h => 0 <= h) hs ->
  set_bits b hs !! j = Some true <->
  b !! j = Some true \/ ((j < length b)%nat /\ In (Z.of_nat j) hs).
Proof.
  revert b. induction hs as [|h hs IH]; intros b Hpos.
  - simpl. split; [auto | intros [H|[_ []]]; exact H].
  - inversion Hpos as [|? ? Hh Hpos']; subst.
    change (set_bits b (h :: hs)) with (set_bits (<[Z.to_nat h := true]> b) hs).
    rewrite (IH _ Hpos'), length_insert. simpl.
    destruct (Nat.eq_dec (Z.to_nat h) j) as [E|E].
    + subst j. rewrite Z2Nat.id by lia.
      destruct (Nat.lt_ge_cases (Z.to_nat h) (length b)) as [Hlt|Hge].
      * rewrite list_lookup_insert_eq by exact Hlt. tauto.
      * rewrite list_insert_ge by lia.
        intuition lia.
    + rewrite list_lookup_insert_ne by exact E.
      assert (h <> Z.of_nat j) by lia. tauto.
Qed.

Lemma set_bits_run (hs : list Z) (self : t) :
  Forall (fun h => 0 <= h < len (bit_array self)) hs ->
  for_each hs set_bit self
  = (Ok tt, set_bit_array self (set_bits (bit_array self) hs)).
Proof.
  revert self. induction hs as [|h hs IH]; intros self Hall.
  - simpl. unfold ret. now destruct self.
  - inversion Hall as [|? ? Hh Hall']; subst. unfold len in *.
    simpl. unfold seq_bind, set_bit at 1, setitem.
    rewrite norm_index_range by exact Hh. simpl.
    rewrite IH by (simpl; rewrite length_insert; exact Hall').
    reflexivity.
Qed.

Lemma add_exact (value : string) (self : t) :
  bloom_valid self -> 0 < size self ->
  add1 value self
  = (Ok tt, set_bit_array self (set_bits (bit_array self) (indices self value))).
Proof.
  intros Hvalid Hsize. unfold BloomFilter.add, seq_bind.
  rewrite hashes_exact by lia.
  apply set_bits_run. unfold bloom_valid in Hvalid. rewrite Hvalid.
  now apply probe_indices_range.
Qed.

Lemma set_bits_valid (self : t) (hs : list Z) :
  bloom_valid self -> bloom_valid (set_bit_array self (set_bits (bit_array self) hs)).
Proof.
  unfold bloom_valid, len. simpl. intros <-. now rewrite set_bits_length.
Qed.

Lemma add_all_exact (stream : list string) (self : t) :
  bloom_valid self -> 0 < size self ->
  add_stream stream self
  = (Ok tt,
     set_bit_array self
       (set_bits (bit_array self) (flat_map (indices self) stream))).
Proof.
  intros Hvalid Hsize. revert self Hvalid Hsize.
  induction stream as [|value stream IH]; intros self Hvalid Hsize.
  - unfold BloomFilter.add_all. simpl. unfold ret. now destruct self.
  - unfold BloomFilter.add_all in *. simpl. unfold seq_bind.
    rewrite add_exact by assumption.
    rewrite IH by (try apply set_bits_valid; assumption).
    simpl. now rewrite set_bits_app.
Qed.

Lemma query_exact (value : string) (self : t) :
  bloom_valid self -> 0 < size self ->
  ask value self
  = (Ok (forallb (fun h => default false (bit_array self !! Z.to_nat h))
                 (indices self value)),
     self).
Proof.
  intros Hvalid Hsize. unfold BloomFilter.query.
  rewrite hashes_exact by lia. simpl. f_equal.
  pose proof (probe_indices_range self value Hsize) as Hrange.
  unfold bloom_valid in Hvalid. rewrite <- Hvalid in Hrange.
  induction Hrange as [|h hs Hh _ IH]; simpl; [reflexivity|].
  unfold len in Hh.
  destruct (lookup_lt_is_Some_2 (bit_array self) (Z.to_nat h)) as [bit Hbit]; [lia|].
  rewrite <- (Z2Nat.id h) at 1 by lia.
  rewrite (getitem_nat _ _ _ Hbit), Hbit. simpl.
  destruct bit; simpl; [exact IH | reflexivity].
Qed.

Lemma query_true_iff (value : string) (self : t) :
  bloom_valid self -> 0 < size self ->
  ask value self = (Ok true, self) <->
  forall h, In h (indices self value) ->
            bit_array self !! Z.to_nat h = Some true.
Proof.
  intros Hvalid Hsize. rewrite query_exact by assumption.
  pose proof (probe_indices_range self value Hsize) as Hrange.
  unfold bloom_valid, len in Hvalid.
  split.
  - intros [= H] h Hin. rewrite forallb_forall in H. specialize (H h Hin).
    destruct (bit_array self !! Z.to_nat h) as [[]|]; simpl in H; congruence.
  - intros H. do 2 f_equal. apply forallb_forall. intros h Hin.
    now rewrite (H h Hin).
Qed.

(** Two bit arrays of one length with the same set bits are equal. *)
Lemma bits_eq (b1 b2 : list bool) :
  length b1 = length b2 ->
  (forall j, b1 !! j = Some true <-> b2 !! j = Some true) ->
  b1 = b2.
Proof.
  intros Hlen H. apply list_eq. intros j.
  destruct (b1 !! j) as [x|] eqn:E1, (b2 !! j) as [y|] eqn:E2.
  - specialize (H j). rewrite E1, E2 in H.
    destruct x, y; try reflexivity; destruct H as [H1 H2];
      [specialize (H1 eq_refl) | specialize (H2 eq_refl)]; congruence.
  - apply lookup_lt_Some in E1. apply lookup_ge_None in E2. lia.
  - apply lookup_ge_None in E1. apply lookup_lt_Some in E2. lia.
  - reflexivity.
Qed.

Lemma ones_insert (b : list bool) (j : nat) :
  (ones (<[j := true]> b) <= S (ones b))%nat.
Proof.
  revert j. induction b as [|x b IH]; intros j; simpl; [lia|].
  destruct j as [|j]; simpl.
  - destruct x; lia.
  - specialize (IH j). lia.
Qed.

Lemma ones_set_bits (b : list bool) (hs : list Z) :
  (ones (set_bits b hs) <= ones b + length hs)%nat.
Proof.
  revert b. induction hs as [|h hs IH]; intros b; simpl; [lia|].
  change (set_bits b (h :: hs)) with (set_bits (<[Z.to_nat h := true]> b) hs).
  specialize (IH (<[Z.to_nat h := true]> b)).
  pose proof (ones_insert b (Z.to_nat h)). lia.
Qed.

Lemma ones_le_length (b : list bool) : (ones b <= length b)%nat.
Proof. induction b as [|[] b IH]; simpl; lia. Qed.

Lemma flat_map_length_const {A B : Type} (f : A -> list B) (l : list A) (k : nat) :
  (forall x, length (f x) = k) -> length (flat_map f l) = (k * length l)%nat.
Proof.
  intros H. induction l as [|x l IH]; simpl; [lia|].
  rewrite length_app, H, IH. lia.
Qed.

End BloomContents.

(** * BloomFilter: further properties *)

Section BloomProperties.

Variable mmh3_hash64 : string -> Z -> Z * Z.

Import BloomFilter.

Local Abbreviation indices := (probe_indices mmh3_hash64).
Local Abbreviation hashes := (BloomFilter._hashes mmh3_hash64).
Local Abbreviation add1 := (BloomFilter.add mmh3_hash64).
Local Abbreviation add_stream := (BloomFilter.add_all mmh3_hash64).
Local Abbreviation ask := (BloomFilter.query mmh3_hash64).

(** X1: the exact contents of the bit array.  On a filter whose bit array
    has [size > 0] bits, adding a stream raises nothing, keeps [size],
    [hash_count] and the length of the bit array, and leaves set exactly
    the bits that were set before and the bits at the indices [_hashes]
    returns for the values of the stream. *)
Theorem bloom_bits_after_adds (self : t) (stream : list string) :
  bloom_valid self ->
  0 < size self ->
  exists self',
    add_stream stream self = (Ok tt, self') /\
    size self' = size self /\
    hash_count self' = hash_count self /\
    length (bit_array self') = length (bit_array self) /\
    forall j : nat,
      bit_array self' !! j = Some true <->
      bit_array self !! j = Some true \/
      exists value hs,
        In value stream /\ hashes self value = Ok hs /\ In (Z.of_nat j) hs.
Proof.
  intros Hvalid Hsize.
  eexists. split; [now apply add_all_exact|]. simpl.
  split; [reflexivity|]. split; [reflexivity|].
  split; [apply set_bits_length|]. intros j.
  assert (Hall : Forall (fun h => 0 <= h < size self)
                   (flat_map (indices self) stream)).
  { apply Forall_forall. intros h Hh. apply list_elem_of_In, in_flat_map in Hh.
    destruct Hh as (value & _ & Hh).
    pose proof (probe_indices_range mmh3_hash64 self value Hsize) as Hr.
    rewrite Forall_forall in Hr. apply Hr. now apply list_elem_of_In. }
  rewrite set_bits_lookup
    by (eapply Forall_impl; [exact Hall|]; simpl; intros; lia).
  split.
  - intros [H|[_ H]]; [now left | right].
    apply in_flat_map in H as (value & Hin & Hh).
    exists value, (indices self value).
    split; [exact Hin|]. split; [apply hashes_exact; lia | exact Hh].
  - intros [H|(value & hs & Hin & Hhs & Hh)]; [now left | right].
    rewrite hashes_exact in Hhs by lia. injection Hhs as <-.
    assert (Hflat : In (Z.of_nat j) (flat_map (indices self) stream))
      by (apply in_flat_map; eauto).
    split; [|exact Hflat].
    rewrite Forall_forall in Hall.
    apply list_elem_of_In, Hall in Hflat.
    unfold bloom_valid, len in Hvalid. lia.
Qed.

(** X2: what [query] answers.  On a filter constructed with a positive
    bitmap size that has been fed a stream, [query x] returns [True] exactly
    when every index of [x] is an index of some value of the stream; on the
    filter as constructed, with a positive hash count, it returns [False]
    for every [x]. *)
Theorem bloom_query_characterised (m k : Z) (stream : list string) (x : string) :
  0 < m ->
  exists bf s hs b,
    __init__ m k = Ok bf /\
    add_stream stream bf = (Ok tt, s) /\
    hashes s x = Ok hs /\
    ask x s = (Ok b, s) /\
    (b = true <->
     forall h, In h hs ->
       exists y hy, In y stream /\ hashes s y = Ok hy /\ In h hy) /\
    (stream = [] -> 0 < k -> b = false).
Proof.
  intros Hm.
  destruct (init_valid m k) as (bf & Hinit & Hvalid & Hsize & Hcount & Hbits); [lia|].
  assert (Hpos : 0 < size bf) by lia.
  pose proof (add_all_exact mmh3_hash64 stream bf Hvalid Hpos) as Hrun.
  set (s := set_bit_array bf
              (set_bits (bit_array bf) (flat_map (indices bf) stream))) in *.
  assert (Hvalid' : bloom_valid s) by now apply set_bits_valid.
  assert (Hpos' : 0 < size s) by exact Hpos.
  assert (Hset : forall h, In h (indices s x) ->
            (bit_array s !! Z.to_nat h = Some true <->
             exists y, In y stream /\ In h (indices s y))).
  { intros h Hh.
    pose proof (probe_indices_range mmh3_hash64 s x Hpos') as Hr.
    rewrite Forall_forall in Hr.
    pose proof (Hr h (proj2 (list_elem_of_In _ _) Hh)) as Hrange.
    subst s. simpl in *.
    rewrite set_bits_lookup.
    - rewrite Hbits, lookup_replicate, Z2Nat.id by lia.
      rewrite in_flat_map. split.
      + intros [[? _]|[_ H]]; [discriminate | exact H].
      + intros H. right. split; [|exact H].
        rewrite length_replicate. lia.
    - apply Forall_forall. intros h' Hh'.
      apply list_elem_of_In, in_flat_map in Hh' as (y & _ & Hy).
      pose proof (probe_indices_range mmh3_hash64 bf y Hpos) as Hr'.
      rewrite Forall_forall in Hr'.
      apply list_elem_of_In, Hr' in Hy. lia. }
  exists bf, s, (indices s x),
    (forallb (fun h => default false (bit_array s !! Z.to_nat h)) (indices s x)).
  split; [exact Hinit|]. split; [exact Hrun|].
  split; [apply hashes_exact; lia|].
  split; [now apply query_exact|]. split.
  - rewrite forallb_forall. split.
    + intros H h Hh. specialize (H h Hh).
      destruct (bit_array s !! Z.to_nat h) as [[]|] eqn:E; simpl in H;
        try discriminate.
      apply (Hset h Hh) in E as (y & Hy & Hin).
      exists y, (indices s y).
      split; [exact Hy|]. split; [apply hashes_exact; lia | exact Hin].
    + intros H h Hh. destruct (H h Hh) as (y & hy & Hy & Hhy & Hin).
      rewrite hashes_exact in Hhy by lia. injection Hhy as <-.
      assert (E : bit_array s !! Z.to_nat h = Some true)
        by (apply (Hset h Hh); eauto).
      now rewrite E.
  - intros -> Hk.
    assert (Hk' : 0 < hash_count s) by (simpl; lia).
    assert (Hex : exists h0, In h0 (indices s x)).
    { unfold probe_indices. destruct (range_pos _ Hk') as [l ->].
      eexists. left. reflexivity. }
    destruct Hex as [h0 Hh0].
    destruct (forallb _ (indices s x)) eqn:E; [|reflexivity].
    rewrite forallb_forall in E. specialize (E h0 Hh0).
    destruct (bit_array s !! Z.to_nat h0) as [[]|] eqn:E0; simpl in E;
      try discriminate.
    apply (Hset h0 Hh0) in E0 as (y & [] & _).
Qed.

(** X3: a positive answer stays.  On a filter whose bit array has
    [size > 0] bits, once [query x] has returned [True], whether or not [x]
    was ever added, it returns [True] after any further [add] calls. *)
Theorem bloom_positive_answers_persist (self : t) (x : string)
    (stream : list string) :
  bloom_valid self ->
  0 < size self ->
  ask x self = (Ok true, self) ->
  exists self',
    add_stream stream self = (Ok tt, self') /\
    ask x self' = (Ok true, self').
Proof.
  intros Hvalid Hsize Hq.
  eexists. split; [now apply add_all_exact|].
  apply query_true_iff; [now apply set_bits_valid | exact Hsize |].
  intros h Hh.
  assert (Hb : bit_array self !! Z.to_nat h = Some true)
    by (apply (proj1 (query_true_iff mmh3_hash64 x self Hvalid Hsize) Hq); exact Hh).
  simpl. eapply bits_le_lookup; [|exact Hb].
  pose proof (add_all_ok mmh3_hash64 stream self Hvalid Hsize) as (b' & Hrun & Hle).
  rewrite add_all_exact in Hrun by assumption.
  injection Hrun as Hrun. now rewrite Hrun.
Qed.

(** X4: the filter depends on the set of values added.  On a filter whose
    bit array has [size > 0] bits, two streams with the same elements, in
    any order and with any repetitions, leave the same filter. *)
Theorem bloom_state_depends_on_set (self : t) (l1 l2 : list string) :
  bloom_valid self ->
  0 < size self ->
  (forall x, In x l1 <-> In x l2) ->
  add_stream l1 self = add_stream l2 self.
Proof.
  intros Hvalid Hsize Hset.
  rewrite !add_all_exact by assumption. do 2 f_equal.
  assert (Hpos : forall l, Forall (fun h => 0 <= h) (flat_map (indices self) l)).
  { intros l. apply Forall_forall. intros h Hh.
    apply list_elem_of_In, in_flat_map in Hh as (y & _ & Hy).
    pose proof (probe_indices_range mmh3_hash64 self y Hsize) as Hr.
    rewrite Forall_forall in Hr. apply list_elem_of_In, Hr in Hy. lia. }
  apply bits_eq; [now rewrite !set_bits_length|].
  intros j. rewrite !set_bits_lookup by apply Hpos.
  rewrite !in_flat_map.
  split; (intros [H|[Hj (y & Hy & Hin)]]; [now left | right]);
    (split; [exact Hj|]); exists y; (split; [apply Hset; exact Hy | exact Hin]).
Qed.

(** X5: how full the filter gets.  On a filter whose bit array has
    [size > 0] bits, adding [n] values sets at most [hash_count * n] more
    bits, and never more bits than the array has. *)
Theorem bloom_set_bits_bound (self : t) (stream : list string) :
  bloom_valid self ->
  0 < size self ->
  exists self',
    add_stream stream self = (Ok tt, self') /\
    (ones (bit_array self')
     <= ones (bit_array self) + Z.to_nat (hash_count self) * length stream)%nat /\
    (ones (bit_array self') <= length (bit_array self))%nat.
Proof.
  intros Hvalid Hsize.
  eexists. split; [now apply add_all_exact|]. simpl. split.
  - rewrite <- (flat_map_length_const (indices self) stream)
      by (intros value; apply probe_indices_length).
    apply ones_set_bits.
  - rewrite <- (set_bits_length (bit_array self) (flat_map (indices self) stream)).
    apply ones_le_length.
Qed.

(** X6: filters without probes or without bits.  With a hash count of zero
    or less, [add] changes nothing and [query] answers [True] to every
    value, whatever the bit array holds; with a size of zero and a positive
    hash count, [add] and [query] raise [ZeroDivisionError] and leave the
    filter as it is. *)
Theorem bloom_without_probes_or_bits (self : t) (value : string) :
  (hash_count self <= 0 ->
   add1 value self = (Ok tt, self) /\ ask value self = (Ok true, self)) /\
  (size self = 0 -> 0 < hash_count self ->
   add1 value self = (Raise ZeroDivisionError, self) /\
   ask value self = (Raise ZeroDivisionError, self)).
Proof.
  split.
  - intros Hk. unfold BloomFilter.add, BloomFilter.query, seq_bind.
    rewrite hashes_nonpos by exact Hk. split; reflexivity.
  - intros Hsize Hk. unfold BloomFilter.add, BloomFilter.query, seq_bind.
    rewrite hashes_zero_size by assumption. split; reflexivity.
Qed.

(** X7: the first revision of the class cannot hash.  Its [_hashes]
    applies [%] to the pair that [mmh3.hash64] returns, so with a positive
    hash count [add] and [query] raise [TypeError] on every value, before
    any bit is read or written; with a hash count of zero or less nothing is
    hashed, [add] changes nothing and [query] answers [True]. *)
Theorem first_revision_cannot_hash (self : t) (value : string) :
  (0 < hash_count self ->
   BloomFilterFirst.add mmh3_hash64 value self = (Raise TypeError, self) /\
   BloomFilterFirst.query mmh3_hash64 value self = (Raise TypeError, self)) /\
  (hash_count self <= 0 ->
   BloomFilterFirst.add mmh3_hash64 value self = (Ok tt, self) /\
   BloomFilterFirst.query mmh3_hash64 value self = (Ok true, self)).
Proof.
  unfold BloomFilterFirst.add, BloomFilterFirst.query, seq_bind,
    BloomFilterFirst._hashes.
  split; intros Hk.
  - destruct (range_pos _ Hk) as [l ->]. split; reflexivity.
  - rewrite range_nonpos by exact Hk. split; reflexivity.
Qed.

End BloomProperties.

(** X1 on a filter of 8 bits and 3 hashes and a stream of two values. *)
Lemma bloom_bits_after_adds_witness :
  bloom_valid small_filter /\
  0 < BloomFilter.size small_filter /\
  exists self',
    BloomFilter.add_all Reference.hash64 ["ab"; "c"]%string small_filter
    = (Ok tt, self') /\
    BloomFilter.size self' = BloomFilter.size small_filter /\
    BloomFilter.hash_count self' = BloomFilter.hash_count small_filter /\
    length (BloomFilter.bit_array self')
    = length (BloomFilter.bit_array small_filter) /\
    forall j : nat,
      BloomFilter.bit_array self' !! j = Some true <->
      BloomFilter.bit_array small_filter !! j = Some true \/
      exists value hs,
        In value ["ab"; "c"]%string /\
        BloomFilter._hashes Reference.hash64 small_filter value = Ok hs /\
        In (Z.of_nat j) hs.
Proof.
  assert (Hv : bloom_valid small_filter) by reflexivity.
  assert (Hs : 0 < BloomFilter.size small_filter) by reflexivity.
  split; [exact Hv|]. split; [exact Hs|].
  exact (bloom_bits_after_adds Reference.hash64 small_filter
           ["ab"; "c"]%string Hv Hs).
Defined.

(** X2 on a filter of 8 bits and 3 hashes fed the value ["ab"], asked for
    ["c"]. *)
Lemma bloom_query_characterised_witness :
  0 < 8 /\
  exists bf s hs b,
    BloomFilter.__init__ 8 3 = Ok bf /\
    BloomFilter.add_all Reference.hash64 ["ab"%string] bf = (Ok tt, s) /\
    BloomFilter._hashes Reference.hash64 s "c"%string = Ok hs /\
    BloomFilter.query Reference.hash64 "c"%string s = (Ok b, s) /\
    (b = true <->
     forall h, In h hs ->
       exists y hy,
         In y ["ab"%string] /\
         BloomFilter._hashes Reference.hash64 s y = Ok hy /\ In h hy) /\
    (["ab"%string] = [] -> 0 < 3 -> b = false).
Proof.
  assert (Hm : 0 < 8) by reflexivity.
  split; [exact Hm|].
  exact (bloom_query_characterised Reference.hash64 8 3 ["ab"%string]
           "c"%string Hm).
Defined.

(** X3 on the filter that holds ["ab"], with ["c"] added afterwards. *)
Lemma bloom_positive_answers_persist_witness :
  bloom_valid loaded_filter /\
  0 < BloomFilter.size loaded_filter /\
  BloomFilter.query Reference.hash64 "ab"%string loaded_filter
  = (Ok true, loaded_filter) /\
  exists self',
    BloomFilter.add_all Reference.hash64 ["c"%string] loaded_filter
    = (Ok tt, self') /\
    BloomFilter.query Reference.hash64 "ab"%string self' = (Ok true, self').
Proof.
  assert (Hv : bloom_valid loaded_filter) by reflexivity.
  assert (Hs : 0 < BloomFilter.size loaded_filter) by reflexivity.
  assert (Hq : BloomFilter.query Reference.hash64 "ab"%string loaded_filter
               = (Ok true, loaded_filter)) by reflexivity.
  split; [exact Hv|]. split; [exact Hs|]. split; [exact Hq|].
  exact (bloom_positive_answers_persist Reference.hash64 loaded_filter
           "ab"%string ["c"%string] Hv Hs Hq).
Defined.

(** X4 on a stream with a repetition against its distinct values in
    another order. *)
Lemma bloom_state_depends_on_set_witness :
  let l1 := ["a"; "bb"; "a"]%string in
  let l2 := ["bb"; "a"]%string in
  bloom_valid small_filter /\
  0 < BloomFilter.size small_filter /\
  (forall x, In x l1 <-> In x l2) /\
  BloomFilter.add_all Reference.hash64 l1 small_filter
  = BloomFilter.add_all Reference.hash64 l2 small_filter.
Proof.
  intros l1 l2.
  assert (Hv : bloom_valid small_filter) by reflexivity.
  assert (Hs : 0 < BloomFilter.size small_filter) by reflexivity.
  assert (H : forall x, In x l1 <-> In x l2) by (intros x; simpl; tauto).
  split; [exact Hv|]. split; [exact Hs|]. split; [exact H|].
  exact (bloom_state_depends_on_set Reference.hash64 small_filter l1 l2 Hv Hs H).
Defined.

(** X5 on a filter of 8 bits and 3 hashes and a stream of two values. *)
Lemma bloom_set_bits_bound_witness :
  bloom_valid small_filter /\
  0 < BloomFilter.size small_filter /\
  exists self',
    BloomFilter.add_all Reference.hash64 ["ab"; "c"]%string small_filter
    = (Ok tt, self') /\
    (ones (BloomFilter.bit_array self')
     <= ones (BloomFilter.bit_array small_filter)
        + Z.to_nat (BloomFilter.hash_count small_filter)
          * length ["ab"; "c"]%string)%nat /\
    (ones (BloomFilter.bit_array self')
     <= length (BloomFilter.bit_array small_filter))%nat.
Proof.
  assert (Hv : bloom_valid small_filter) by reflexivity.
  assert (Hs : 0 < BloomFilter.size small_filter) by reflexivity.
  split; [exact Hv|]. split; [exact Hs|].
  exact (bloom_set_bits_bound Reference.hash64 small_filter
           ["ab"; "c"]%string Hv Hs).
Defined.

(** * The drivers of the Bloom filter notebook *)

Section BloomDrivers.

Variable mmh3_hash64 : string -> Z -> Z * Z.
Variable random_random : nat -> float.

Import BloomFilter.

Local Abbreviation indices := (probe_indices mmh3_hash64).
Local Abbreviation add_stream := (BloomFilter.add_all mmh3_hash64).
Local Abbreviation ask := (BloomFilter.query mmh3_hash64).
Local Abbreviation init_filter := (BloomNotebook.init_filter mmh3_hash64).
Local Abbreviation test_filter :=
  (BloomNotebook.test_filter mmh3_hash64 random_random).

Lemma len_cons {A : Type} (x : A) (l : list A) : len (x :: l) = 1 + len l.
Proof. unfold len. simpl. lia. Qed.

Lemma len_nonneg {A : Type} (l : list A) : 0 <= len l.
Proof. unfold len. lia. Qed.

Lemma western_ids_cons (row : row) (rows : list Builtins.row) :
  western_ids (row :: rows)
  = if String.eqb (row "genre"%string) "Western"
    then row "id"%string :: western_ids rows
    else western_ids rows.
Proof.
  unfold western_ids, column. simpl.
  now destruct (String.eqb (row "genre"%string) "Western").
Qed.

(** [init_filter] adds the ids of the Western rows, in file order, and
    counts them; an exception of [add] ends it. *)
Lemma init_rows_adds (rows : list row) (counter : Z) (self : t) :
  BloomNotebook.init_rows mmh3_hash64 rows counter self
  = match add_stream (western_ids rows) self with
    | (Ok _, self') => (Ok (counter + len (western_ids rows)), self')
    | (Raise e, self') => (Raise e, self')
    end.
Proof.
  revert counter self. induction rows as [|row rows IH]; intros counter self.
  - simpl. unfold ret, len. simpl. now rewrite Z.add_0_r.
  - rewrite western_ids_cons. simpl.
    destruct (String.eqb (row "genre"%string) "Western"); [|apply IH].
    unfold BloomFilter.add_all. simpl. unfold seq_bind.
    destruct (BloomFilter.add mmh3_hash64 (row "id"%string) self) as [[[]|e] s1];
      [|reflexivity].
    rewrite IH. unfold BloomFilter.add_all.
    destruct (for_each (western_ids rows) (BloomFilter.add mmh3_hash64) s1)
      as [[[]|e] s2]; [|reflexivity].
    rewrite len_cons, Z.add_assoc. reflexivity.
Qed.

(** A value that was added is found. *)
Lemma added_is_found (self : t) (stream : list string) (x : string) :
  bloom_valid self -> 0 < size self -> In x stream ->
  let self' :=
    set_bit_array self
      (set_bits (bit_array self) (flat_map (indices self) stream)) in
  ask x self' = (Ok true, self').
Proof.
  intros Hvalid Hsize Hin self'.
  apply query_true_iff; [now apply set_bits_valid | exact Hsize |].
  intros h Hh. subst self'. simpl.
  pose proof (probe_indices_range mmh3_hash64 self x Hsize) as Hr.
  rewrite Forall_forall in Hr.
  assert (Hrange : 0 <= h < size self) by (apply Hr, list_elem_of_In; exact Hh).
  apply set_bits_lookup.
  - apply Forall_forall. intros h' Hh'.
    apply list_elem_of_In, in_flat_map in Hh' as (y & _ & Hy).
    pose proof (probe_indices_range mmh3_hash64 self y Hsize) as Hr'.
    rewrite Forall_forall in Hr'. apply list_elem_of_In, Hr' in Hy. lia.
  - right. unfold bloom_valid, len in Hvalid. split; [lia|].
    rewrite Z2Nat.id by lia. apply in_flat_map. eauto.
Qed.

Lemma answers_true_query (self : t) (value : string) (b : bool) :
  ask value self = (Ok b, self) -> answers_true mmh3_hash64 self value = b.
Proof. unfold answers_true. now intros ->. Qed.

Lemma test_rows_spec (rows : list row) (sample_rate : float) (n : nat)
    (counter : Z) (ids : list string) (self : t) :
  bloom_valid self -> 0 < size self ->
  let found :=
    column "id"
      (List.filter (fun row : row => answers_true mmh3_hash64 self (row "id"%string))
         (kept random_random (fun d => flt d sample_rate) n rows)) in
  BloomNotebook.test_rows mmh3_hash64 random_random rows sample_rate n counter ids self
  = (Ok (counter + len found,
         if fne sample_rate float_one then ids ++ found else ids),
     self).
Proof.
  intros Hvalid Hsize. revert n counter ids.
  induction rows as [|row rows IH]; intros n counter ids; simpl.
  - unfold ret, len. simpl. rewrite Z.add_0_r, app_nil_r.
    now destruct (fne sample_rate float_one).
  - destruct (flt (random_random n) sample_rate); [|apply IH].
    unfold seq_bind.
    destruct (query_total mmh3_hash64 (row "id"%string) self Hvalid Hsize)
      as [b Hb].
    rewrite Hb. simpl. rewrite (answers_true_query _ _ _ Hb).
    destruct b; [|apply IH].
    rewrite IH. unfold column. simpl. rewrite len_cons, Z.add_assoc.
    destruct (fne sample_rate float_one); [rewrite <- app_assoc|]; reflexivity.
Qed.

Lemma kept_all (keep : float -> bool) (n : nat) (rows : list row) :
  (forall i, keep (random_random i) = true) ->
  kept random_random keep n rows = rows.
Proof.
  intros H. revert n. induction rows as [|row rows IH]; intros n; simpl;
    [reflexivity|].
  now rewrite H, IH.
Qed.

Lemma kept_length (keep : float -> bool) (n : nat) (rows : list row) :
  (length (kept random_random keep n rows) <= length rows)%nat.
Proof.
  revert n. induction rows as [|row rows IH]; intros n; simpl; [lia|].
  specialize (IH (S n)). destruct (keep (random_random n)); simpl; lia.
Qed.

Lemma kept_sublist (keep : float -> bool) (n : nat) (rows : list row) (r : row) :
  In r (kept random_random keep n rows) -> In r rows.
Proof.
  revert n. induction rows as [|row rows IH]; intros n; simpl; [tauto|].
  destruct (keep (random_random n)); simpl; intros H.
  - destruct H as [H|H]; [now left | right; eauto].
  - right. eauto.
Qed.




End BloomDrivers.




Section CountFp.

Lemma count_row_spec (row : row) (ids : list string) (counter : Z) :
  BloomNotebook.count_row row ids counter
  = if String.eqb (row "genre"%string) "Western" && mem (row "id"%string) ids
    then counter + 1 else counter.
Proof.
  induction ids as [|id ids IH]; simpl.
  - now rewrite andb_false_r.
  - rewrite IH. unfold mem. simpl.
    destruct (String.eqb (row "id"%string) id),
             (String.eqb (row "genre"%string) "Western"); reflexivity.
Qed.

(** [count_fp] subtracts from [len(ids)] the number of Western rows whose
    id occurs in [ids]. *)
Lemma count_fp_closed (genres_file : list row) (ids : list string) :
  BloomNotebook.count_fp genres_file ids
  = len ids
    - len (List.filter (fun id => mem id ids) (western_ids genres_file)).
Proof.
  unfold BloomNotebook.count_fp. f_equal.
  assert (Hgen : forall c,
    fold_left (fun counter row => BloomNotebook.count_row row ids counter)
      genres_file c
    = c + len (List.filter (fun id => mem id ids) (western_ids genres_file))).
  { induction genres_file as [|row rows IH]; intros c; simpl.
    - unfold len. simpl. lia.
    - rewrite IH, count_row_spec, western_ids_cons.
      destruct (String.eqb (row "genre"%string) "Western"); simpl; [|reflexivity].
      destruct (mem (row "id"%string) ids); [|reflexivity].
      rewrite len_cons. lia. }
  now rewrite Hgen.
Qed.

Lemma mem_In (x : string) (l : list string) : mem x l = true <-> In x l.
Proof.
  unfold mem. rewrite existsb_exists. split.
  - intros (y & Hy & E). apply String.eqb_eq in E. now subst.
  - intros H. exists x. split; [exact H | apply String.eqb_refl].
Qed.

(** Two duplicate-free lists have as many elements of the one in the other
    as the other way round. *)
Lemma common_length (l1 l2 : list string) :
  List.NoDup l1 -> List.NoDup l2 ->
  length (List.filter (fun x => mem x l2) l1)
  = length (List.filter (fun x => mem x l1) l2).
Proof.
  intros H1 H2. apply Permutation_length, Permutation.NoDup_Permutation.
  - now apply List.NoDup_filter.
  - now apply List.NoDup_filter.
  - intros x. rewrite !filter_In, !mem_In. tauto.
Qed.


(** With a repeated id the count is off: the id 7 is Western, yet
    [count_fp(["7", "7"])] is 1; with a repeated Western row it is
    negative. *)
Lemma count_fp_with_duplicates :
  BloomNotebook.count_fp [genre_row "7" "Western"] ["7"; "7"]%string = 1 /\
  BloomNotebook.count_fp [genre_row "7" "Western"; genre_row "7" "Western"]
    ["7"%string] = -1.
Proof. split; reflexivity. Qed.

End CountFp.


(** * The sampled run of the Bloom filter notebook *)

Section SampledRun.

Variable mmh3_hash64 : string -> Z -> Z * Z.
Variable random_random : nat -> float.

Import BloomFilter.

Lemma NoDup_column_filter (c : string) (f : row -> bool) (rows : list row) :
  List.NoDup (column c rows) -> List.NoDup (column c (List.filter f rows)).
Proof.
  unfold column. induction rows as [|r rows IH]; simpl; [auto|].
  intros H. inversion H as [|? ? Hnotin Hrest]; subst.
  destruct (f r); simpl; [|auto].
  constructor; [|auto].
  intros Hin. apply Hnotin.
  apply in_map_iff in Hin as (r' & E & Hr'). apply filter_In in Hr' as [Hr' _].
  apply in_map_iff. eauto.
Qed.

Lemma NoDup_column_kept (c : string) (keep : float -> bool) (n : nat)
    (rows : list row) :
  List.NoDup (column c rows) ->
  List.NoDup (column c (kept random_random keep n rows)).
Proof.
  unfold column. revert n. induction rows as [|r rows IH]; intros n; simpl; [auto|].
  intros H. inversion H as [|? ? Hnotin Hrest]; subst.
  destruct (keep (random_random n)); simpl; [|auto].
  constructor; [|auto].
  intros Hin. apply Hnotin.
  apply in_map_iff in Hin as (r' & E & Hr'). apply kept_sublist in Hr'.
  apply in_map_iff. eauto.
Qed.


End SampledRun.


(** * The driver of [count_distinct.ipynb] *)

Section CountDistinctDriver.

Context {T : Type} {fm_class : CountDistinct.Sketch T}.

Variable random_random : nat -> float.

Lemma process_rows_spec (rows : list row) (sample_rate : float) (n : nat)
    (counter : Z) (fm : T) :
  let names :=
    column "name" (kept random_random (fun d => fle d sample_rate) n rows) in
  CountDistinct.process_rows random_random rows sample_rate n counter fm
  = match for_each names CountDistinct.process fm with
    | (Ok _, fm') => (Ok (counter + len names), fm')
    | (Raise e, fm') => (Raise e, fm')
    end.
Proof.
  revert n counter fm. induction rows as [|row rows IH]; intros n counter fm; simpl.
  - unfold ret, len. simpl. now rewrite Z.add_0_r.
  - destruct (fle (random_random n) sample_rate); [|apply IH].
    unfold column. simpl. unfold seq_bind.
    destruct (CountDistinct.process (row "name"%string) fm) as [[[]|e] fm1];
      [|reflexivity].
    rewrite IH. unfold column.
    destruct (for_each _ CountDistinct.process fm1) as [[[]|e] fm2]; [|reflexivity].
    rewrite len_cons, Z.add_assoc. reflexivity.
Qed.

Lemma earlier_process_rows_spec (rows : list row) (sample_rate : float) (n : nat)
    (counter : Z) (fm : T) :
  let names :=
    column "name" (kept random_random (fun d => fle d sample_rate) n rows) in
  CountDistinctEarlier.process_rows random_random rows sample_rate n counter fm
  = match for_each names CountDistinct.process fm with
    | (Ok _, fm') => (Ok (counter + len rows), fm')
    | (Raise e, fm') => (Raise e, fm')
    end.
Proof.
  revert n counter fm. induction rows as [|row rows IH]; intros n counter fm; simpl.
  - unfold ret, len. simpl. now rewrite Z.add_0_r.
  - unfold seq_bind at 1.
    destruct (fle (random_random n) sample_rate).
    + unfold column. simpl. unfold seq_bind.
      destruct (CountDistinct.process (row "name"%string) fm) as [[[]|e] fm1];
        [|reflexivity].
      rewrite IH. unfold column.
      destruct (for_each _ CountDistinct.process fm1) as [[[]|e] fm2]; [|reflexivity].
      rewrite len_cons, Z.add_assoc. reflexivity.
    + unfold ret. rewrite IH.
      destruct (for_each _ CountDistinct.process fm) as [[[]|e] fm2]; [|reflexivity].
      rewrite len_cons, Z.add_assoc. reflexivity.
Qed.



End CountDistinctDriver.

Section SimpleDriver.

Variable sha256 : string -> Z.

Local Abbreviation process_all := (FlajoletMartinSimple.process_all sha256).
Local Abbreviation estimate := FlajoletMartinSimple.estimate_cardinality.
Local Abbreviation process_csv :=
  (CountDistinct.process_csv (fm_class := CountDistinct.simple sha256)).

Lemma simple_for_each (names : list string) (fm : FlajoletMartinSimple.t) :
  for_each names (CountDistinct.process (Sketch := CountDistinct.simple sha256)) fm
  = (Ok tt, process_all fm names).
Proof.
  revert fm. induction names as [|name names IH]; intros fm; simpl; [reflexivity|].
  unfold seq_bind. simpl. apply IH.
Qed.

(** [process_csv] on a [FlajoletMartinSimple]: the names of the sampled
    rows are folded into the sketch, nothing raises. *)
Lemma simple_process_csv (random_random : nat -> float) (file : list row)
    (sample_rate : float) (fm : FlajoletMartinSimple.t) :
  let names :=
    column "name" (kept random_random (fun d => fle d sample_rate) 0 file) in
  process_csv random_random file sample_rate fm
  = (Ok (estimate (process_all fm names), len names), process_all fm names).
Proof.
  intros names. unfold CountDistinct.process_csv, seq_bind.
  rewrite process_rows_spec. fold names. now rewrite simple_for_each.
Qed.

Lemma flt_fle (x y : float) : flt x y = true -> fle x y = true.
Proof.
  unfold flt, fle, SFltb, SFleb. destruct (SFcompare x y) as [[]|]; congruence.
Qed.

Lemma running_max_incl {A : Type} (f : A -> nat) (l l' : list A) (a : nat) :
  (forall x, In x l -> In x l') ->
  (running_max f l a <= running_max f l' a)%nat.
Proof.
  intros Hsub. destruct (running_max_attained f l a) as [->|[x [Hin ->]]].
  - apply running_max_ge_init.
  - apply running_max_ge_elem. auto.
Qed.

Lemma simple_process_all_twice (fm : FlajoletMartinSimple.t) (names : list string) :
  process_all (process_all fm names) names = process_all fm names.
Proof.
  unfold FlajoletMartinSimple.process_all. rewrite <- fold_left_app.
  apply (simple_same_set sha256). intros x. rewrite in_app_iff. tauto.
Qed.



End SimpleDriver.


(** * FlajoletMartinSimple: the size of the estimate *)

Section SimpleBounds.

Variable sha256 : string -> Z.

Local Abbreviation process_all := (FlajoletMartinSimple.process_all sha256).
Local Abbreviation estimate := FlajoletMartinSimple.estimate_cardinality.

(** The truncation of [2 ** r / phi] lies in [[2 ** r, 2 ** (r + 1))]. *)
Lemma corrected_estimate_int_bounds (r : nat) :
  exists e,
    int_of_float (corrected_estimate r) = Ok e /\
    2 ^ Z.of_nat r <= e < 2 * 2 ^ Z.of_nat r.
Proof.
  unfold corrected_estimate, int_of_float.
  eexists. split; [reflexivity|].
  destruct (Z.leb_spec 0 (Z.of_nat r - 52)) as [Hge|Hlt].
  - assert (Hpow : 2 ^ Z.of_nat r = 4503599627370496 * 2 ^ (Z.of_nat r - 52)).
    { change 4503599627370496 with (2 ^ 52). rewrite <- Z.pow_add_r by lia.
      f_equal. lia. }
    assert (0 < 2 ^ (Z.of_nat r - 52)) by (apply Z.pow_pos_nonneg; lia).
    rewrite Hpow. nia.
  - replace (- (Z.of_nat r - 52)) with (52 - Z.of_nat r) by lia.
    assert (Hd : 0 < 2 ^ (52 - Z.of_nat r)) by (apply Z.pow_pos_nonneg; lia).
    assert (Hprod : 2 ^ (52 - Z.of_nat r) * 2 ^ Z.of_nat r = 4503599627370496).
    { rewrite <- Z.pow_add_r by lia.
      replace (52 - Z.of_nat r + Z.of_nat r) with 52 by lia. reflexivity. }
    split.
    + apply Z.div_le_lower_bound; [exact Hd | lia].
    + apply Z.div_lt_upper_bound; [exact Hd | lia].
Qed.

Lemma tail_length_below (W h : Z) :
  2 <= W -> 0 <= h < 2 ^ W -> Z.of_nat (tail_length h) < W.
Proof.
  intros HW [Hlo Hhi]. destruct h as [|p|p]; try lia.
  - rewrite tail_length_zero. lia.
  - rewrite tail_length_pos. now apply ctz_lt_width.
Qed.

(** X17: the correction of the driver cell.  For a [FlajoletMartinSimple]
    whose maximum tail length is at most 1023, [int(cardinality / phi)]
    raises nothing and returns a number that is at least the estimate and
    less than twice the estimate. *)
Theorem correction_within_factor_two (self : FlajoletMartinSimple.t) :
  (FlajoletMartinSimple.max_tail_length self <= max_exponent)%nat ->
  exists e,
    FlajoletMartinSimple.corrected (estimate self) = Ok e /\
    estimate self <= e < 2 * estimate self.
Proof.
  intros Hr. unfold FlajoletMartinSimple.estimate_cardinality.
  rewrite (corrected_closed _ Hr). apply corrected_estimate_int_bounds.
Qed.

(** X18: with a 256-bit hash the simple sketch stays small.  Whatever
    stream a new [FlajoletMartinSimple] has processed, if the hash values
    of its elements are below [2 ** 256], the maximum tail length is at
    most 255, the estimate lies between 1 and [2 ** 255], and the
    correction [int(cardinality / phi)] of the driver cell does not
    raise. *)
Theorem simple_sketch_bounded_by_hash_width (stream : list string) :
  (forall v, In v stream -> 0 <= sha256 v < 2 ^ 256) ->
  let fm := process_all FlajoletMartinSimple.__init__ stream in
  (FlajoletMartinSimple.max_tail_length fm <= 255)%nat /\
  1 <= estimate fm <= 2 ^ 255 /\
  exists e, FlajoletMartinSimple.corrected (estimate fm) = Ok e.
Proof.
  intros Hrange fm.
  assert (Hr : (FlajoletMartinSimple.max_tail_length fm <= 255)%nat).
  { subst fm. rewrite simple_process_all_max.
    apply running_max_bound; [simpl; lia|].
    intros v Hv.
    pose proof (tail_length_below 256 (sha256 v) ltac:(lia) (Hrange v Hv)). lia. }
  split; [exact Hr|]. split.
  - unfold FlajoletMartinSimple.estimate_cardinality. split.
    + assert (0 < 2 ^ Z.of_nat (FlajoletMartinSimple.max_tail_length fm))
        by (apply Z.pow_pos_nonneg; lia).
      lia.
    + apply Z.pow_le_mono_r; lia.
  - unfold FlajoletMartinSimple.estimate_cardinality.
    rewrite corrected_closed by (unfold max_exponent; lia).
    destruct (corrected_estimate_int_bounds (FlajoletMartinSimple.max_tail_length fm))
      as (e & He & _).
    eauto.
Qed.

End SimpleBounds.

(** X17 on the maximum tail length 20 of the recorded run: the estimate
    1048576 is corrected to a number below 2097152. *)
Lemma correction_within_factor_two_witness :
  let self := {| FlajoletMartinSimple.max_tail_length := 20 |} in
  (FlajoletMartinSimple.max_tail_length self <= max_exponent)%nat /\
  exists e,
    FlajoletMartinSimple.corrected
      (FlajoletMartinSimple.estimate_cardinality self) = Ok e /\
    FlajoletMartinSimple.estimate_cardinality self <= e
    < 2 * FlajoletMartinSimple.estimate_cardinality self.
Proof.
  intros self.
  assert (Hr : (FlajoletMartinSimple.max_tail_length self <= max_exponent)%nat)
    by (unfold max_exponent; simpl; lia).
  split; [exact Hr|].
  exact (correction_within_factor_two self Hr).
Defined.

(** X18 on the stream ["aaaa"; "ab"] with the reference hash. *)
Lemma simple_sketch_bounded_by_hash_width_witness :
  let stream := ["aaaa"; "ab"]%string in
  (forall v, In v stream -> 0 <= Reference.sha256 v < 2 ^ 256) /\
  let fm :=
    FlajoletMartinSimple.process_all Reference.sha256
      FlajoletMartinSimple.__init__ stream in
  (FlajoletMartinSimple.max_tail_length fm <= 255)%nat /\
  1 <= FlajoletMartinSimple.estimate_cardinality fm <= 2 ^ 255 /\
  exists e,
    FlajoletMartinSimple.corrected
      (FlajoletMartinSimple.estimate_cardinality fm) = Ok e.
Proof.
  intros stream.
  assert (Hrange : forall v, In v stream -> 0 <= Reference.sha256 v < 2 ^ 256)
    by (intros v [<-|[<-|[]]]; split; (discriminate || reflexivity)).
  split; [exact Hrange|].
  exact (simple_sketch_bounded_by_hash_width Reference.sha256 stream Hrange).
Defined.

(** * FlajoletMartinMultiple: cells, parameters, shapes *)

Section GroupedCellsClosed.

Variable hash : string -> Z -> Z.
Variable randint : nat -> Z.

Import FlajoletMartinMultiple.

(** The content of a cell of a constructed instance after a stream. *)
Lemma grouped_cell_running_max (n k : Z) (stream : list string) (g i : nat) :
  (g < Z.to_nat n)%nat ->
  (i < Z.to_nat k)%nat ->
  let slot := (g * Z.to_nat k + i)%nat in
  exists row,
    max_tail_length
      (snd (FlajoletMartinMultiple.process_all hash stream
              (FlajoletMartinMultiple.__init__ randint n k))) !! g = Some row /\
    row !! i
    = Some (running_max (fun value => tail_length (hash value (randint slot)))
              stream 0).
Proof.
  intros Hg Hi slot.
  assert (Hslot : (slot < Z.to_nat (n * k))%nat).
  { subst slot. rewrite Z2Nat.inj_mul by lia. nia. }
  assert (Hseed : seeds (FlajoletMartinMultiple.__init__ randint n k) !! slot
                  = Some (randint slot)).
  { simpl. rewrite list_lookup_fmap, lookup_seq_lt by exact Hslot. reflexivity. }
  rewrite (process_all_closed hash) by apply init_well_formed.
  exists (imap (fun i old =>
                  running_max
                    (fun value =>
                       cell_tail hash (FlajoletMartinMultiple.__init__ randint n k)
                         value g i)
                    stream old)
               (replicate (Z.to_nat k) 0%nat)).
  split.
  - simpl. unfold absorbed. rewrite list_lookup_imap. simpl.
    rewrite list_lookup_fmap. unfold range.
    rewrite list_lookup_fmap, lookup_seq_lt by exact Hg. reflexivity.
  - rewrite list_lookup_imap, lookup_replicate_2 by exact Hi. simpl.
    f_equal. apply running_max_ext_in. intros value _. unfold cell_tail.
    change (hashes_per_group (FlajoletMartinMultiple.__init__ randint n k)) with k.
    fold slot. now rewrite Hseed.
Qed.

Lemma running_max_fmap {A B : Type} (f : B -> nat) (h : A -> B) (l : list A)
    (a : nat) :
  running_max f (h <$> l) a = running_max (fun x => f (h x)) l a.
Proof.
  revert a. induction l as [|x l IH]; intros a; simpl; [reflexivity|]. apply IH.
Qed.

End GroupedCellsClosed.

Section GroupedCells.

Variable mmh3_hash128 : string -> Z -> Z.
Variable randint : nat -> Z.

Import FlajoletMartinMultiple.

Local Abbreviation process := (FlajoletMartinMultiple.process mmh3_hash128).
Local Abbreviation process_cell := (FlajoletMartinMultiple.process_cell mmh3_hash128).
Local Abbreviation process_all := (FlajoletMartinMultiple.process_all mmh3_hash128).
Local Abbreviation __init__ := (FlajoletMartinMultiple.__init__ randint).

Lemma same_parameters_refl (s : t) : same_parameters s s.
Proof. repeat split. Qed.

Lemma same_parameters_trans (s1 s2 s3 : t) :
  same_parameters s1 s2 -> same_parameters s2 s3 -> same_parameters s1 s3.
Proof.
  unfold same_parameters. intros (? & ? & ? & ? & ?) (? & ? & ? & ? & ?).
  repeat split; congruence.
Qed.

Lemma process_cell_parameters (value : string) (group i : Z) (s : t) :
  same_parameters s (snd (process_cell value group i s)).
Proof.
  unfold FlajoletMartinMultiple.process_cell.
  destruct (let* seed := _ in _) as [m|e]; simpl; repeat split.
Qed.

Lemma process_parameters (value : string) (s : t) :
  same_parameters s (snd (process value s)).
Proof.
  unfold FlajoletMartinMultiple.process.
  apply (for_each_preserves same_parameters);
    [exact same_parameters_refl | exact same_parameters_trans |].
  intros group s'.
  apply (for_each_preserves same_parameters);
    [exact same_parameters_refl | exact same_parameters_trans |].
  intros i s''. apply process_cell_parameters.
Qed.

(** X19: [process] writes the matrix only.  In every state, whether the
    call returns or raises part-way, [process] and a whole stream of
    [process] calls leave [num_groups], [hashes_per_group], [num_hashes],
    the seeds and [phi] as they were. *)
Theorem process_keeps_parameters (self : t) (value : string)
    (stream : list string) :
  let after s' :=
    num_groups s' = num_groups self /\
    hashes_per_group s' = hashes_per_group self /\
    num_hashes s' = num_hashes self /\
    seeds s' = seeds self /\
    phi s' = phi self in
  after (snd (process value self)) /\
  after (snd (process_all stream self)).
Proof.
  intros after. subst after. cbv beta. split.
  - apply process_parameters.
  - unfold FlajoletMartinMultiple.process_all.
    apply (for_each_preserves same_parameters);
      [exact same_parameters_refl | exact same_parameters_trans |].
    intros v s'. apply process_parameters.
Qed.

(** X20: every cell is a simple sketch with its own seed.  After any
    stream, cell [i] of group [g] of a constructed instance holds the
    maximum tail length that a [FlajoletMartinSimple] whose hash is
    [mmh3.hash128] with the seed at slot [g * hashes_per_group + i] holds
    after the same stream; that slot holds the draw of [random.randint]
    with that number, and no other cell uses it. *)
Theorem grouped_cell_is_seeded_simple_sketch (n k : Z) (stream : list string)
    (g i : nat) :
  (g < Z.to_nat n)%nat ->
  (i < Z.to_nat k)%nat ->
  let run := process_all stream (__init__ n k) in
  let slot := (g * Z.to_nat k + i)%nat in
  fst run = Ok tt /\
  seeds (snd run) !! slot = Some (randint slot) /\
  (exists row,
     max_tail_length (snd run) !! g = Some row /\
     row !! i
     = Some (FlajoletMartinSimple.max_tail_length
               (FlajoletMartinSimple.process_all
                  (fun value => mmh3_hash128 value (randint slot))
                  FlajoletMartinSimple.__init__ stream))) /\
  (forall g' i' : nat,
     (i' < Z.to_nat k)%nat -> (g' * Z.to_nat k + i')%nat = slot ->
     g' = g /\ i' = i).
Proof.
  intros Hg Hi run slot.
  assert (Hslot : (slot < Z.to_nat (n * k))%nat).
  { subst slot. rewrite Z2Nat.inj_mul by lia. nia. }
  split; [|split; [|split]].
  - subst run. now rewrite (process_all_closed mmh3_hash128) by apply init_well_formed.
  - subst run. rewrite (process_all_closed mmh3_hash128) by apply init_well_formed.
    simpl. rewrite list_lookup_fmap, lookup_seq_lt by exact Hslot. reflexivity.
  - destruct (grouped_cell_running_max mmh3_hash128 randint n k stream g i Hg Hi)
      as (row & Hrow & Hcell).
    exists row. split; [exact Hrow|]. rewrite Hcell. f_equal.
    now rewrite simple_process_all_max.
  - intros g' i' Hi' E. subst slot.
    clear Hslot. generalize dependent (Z.to_nat k). intros K Hi Hi' E.
    destruct (Nat.lt_trichotomy g' g) as [H|[H|H]].
    + exfalso. assert ((g' + 1) * K <= g * K)%nat by (apply Nat.mul_le_mono_r; lia).
      lia.
    + subst g'. lia.
    + exfalso. assert ((g + 1) * K <= g' * K)%nat by (apply Nat.mul_le_mono_r; lia).
      lia.
Qed.

(** X21: instances without groups or without hashes.  A
    [FlajoletMartinMultiple] constructed with [num_groups <= 0], or with
    [hashes_per_group <= 0], processes any stream without raising and
    without changing; its [estimate_cardinality] then raises:
    [ZeroDivisionError] without groups (the mean of no median),
    [IndexError] with groups of no hash (the median of an empty list). *)
Theorem grouped_estimate_needs_groups_and_hashes (n k : Z) (stream : list string) :
  (n <= 0 ->
   process_all stream (__init__ n k) = (Ok tt, __init__ n k) /\
   estimate_cardinality (__init__ n k) = Raise ZeroDivisionError) /\
  (0 < n -> k <= 0 ->
   process_all stream (__init__ n k) = (Ok tt, __init__ n k) /\
   estimate_cardinality (__init__ n k) = Raise IndexError).
Proof.
  split.
  - intros Hn.
    rewrite (process_all_closed mmh3_hash128) by apply init_well_formed.
    unfold FlajoletMartinMultiple.__init__, estimate_cardinality, group_medians,
      absorbed, set_max_tail_length.
    simpl. rewrite range_nonpos by exact Hn. split; reflexivity.
  - intros Hn Hk.
    rewrite (process_all_closed mmh3_hash128) by apply init_well_formed.
    unfold FlajoletMartinMultiple.__init__, estimate_cardinality, group_medians,
      absorbed, set_max_tail_length.
    simpl. replace (Z.to_nat k) with O by lia.
    destruct (range_pos n Hn) as [l ->]. simpl. split; [|reflexivity].
    do 2 f_equal. f_equal. apply list_eq. intros j.
    rewrite list_lookup_imap, !list_lookup_fmap.
    destruct (l !! j); reflexivity.
Qed.

End GroupedCells.

(** X20 on two groups of two hashes, for the first cell of the second
    group. *)
Lemma grouped_cell_is_seeded_simple_sketch_witness :
  let stream := ["a"; "bb"]%string in
  (1 < Z.to_nat 2)%nat /\
  (0 < Z.to_nat 2)%nat /\
  let run :=
    FlajoletMartinMultiple.process_all Reference.hash128 stream
      (FlajoletMartinMultiple.__init__ Reference.randint 2 2) in
  let slot := (1 * Z.to_nat 2 + 0)%nat in
  fst run = Ok tt /\
  FlajoletMartinMultiple.seeds (snd run) !! slot = Some (Reference.randint slot) /\
  (exists row,
     FlajoletMartinMultiple.max_tail_length (snd run) !! 1%nat = Some row /\
     row !! 0%nat
     = Some (FlajoletMartinSimple.max_tail_length
               (FlajoletMartinSimple.process_all
                  (fun value => Reference.hash128 value (Reference.randint slot))
                  FlajoletMartinSimple.__init__ stream))) /\
  (forall g' i' : nat,
     (i' < Z.to_nat 2)%nat -> (g' * Z.to_nat 2 + i')%nat = slot ->
     g' = 1%nat /\ i' = 0%nat).
Proof.
  intros stream.
  assert (Hg : (1 < Z.to_nat 2)%nat) by (simpl; lia).
  assert (Hi : (0 < Z.to_nat 2)%nat) by (simpl; lia).
  split; [exact Hg|]. split; [exact Hi|].
  exact (grouped_cell_is_seeded_simple_sketch Reference.hash128
           Reference.randint 2 2 stream 1 0 Hg Hi).
Defined.

(** * The driver on a grouped sketch *)

Section GroupedDriver.

Variable mmh3_hash128 : string -> Z -> Z.
Variable randint : nat -> Z.
Variable random_random : nat -> float.


End GroupedDriver.

(** * FlajoletMartinMultiple: the order of cells and of groups *)

Section GroupedOrder.

Import FlajoletMartinMultiple.

Lemma sort_nat_unique (l l' : list nat) :
  Permutation l l' -> sort_nat l = sort_nat l'.
Proof.
  intros H. apply (StronglySorted_unique le).
  - apply Sorted_StronglySorted; [tc_solve | apply sort_nat_sorted].
  - apply Sorted_StronglySorted; [tc_solve | apply sort_nat_sorted].
  - now rewrite <- !sort_nat_perm.
Qed.

Lemma group_median_permuted (self1 self2 : t) (group1 group2 : list nat) :
  phi self1 = Globals.phi -> phi self2 = Globals.phi ->
  Permutation group1 group2 ->
  Forall (fun r => (r <= max_exponent)%nat) group1 ->
  group_median self1 group1 = group_median self2 group2.
Proof.
  intros H1 H2 Hperm Hb1.
  assert (Hb2 : Forall (fun r => (r <= max_exponent)%nat) group2)
    by (eapply Permutation_Forall; eassumption).
  unfold group_median. rewrite H1, H2.
  rewrite (comprehension_corrected group1 Hb1), (comprehension_corrected group2 Hb2).
  simpl. rewrite !sorted_corrected. now rewrite (sort_nat_unique _ _ Hperm).
Qed.

(** X23: the estimate does not depend on the order of the cells inside a
    group.  Two instances with [phi = 0.77351] whose matrices have, row by
    row, the same cells in another order (no cell above 1023) give the same
    [estimate_cardinality], exceptions included. *)
Theorem estimate_ignores_order_within_groups (self1 self2 : t) :
  phi self1 = Globals.phi ->
  phi self2 = Globals.phi ->
  Forall2 (@Permutation nat) (max_tail_length self1) (max_tail_length self2) ->
  cells_bounded (max_tail_length self1) ->
  estimate_cardinality self1 = estimate_cardinality self2.
Proof.
  intros H1 H2 Hperm Hb. unfold estimate_cardinality, group_medians.
  replace (comprehension (group_median self2) (max_tail_length self2))
    with (comprehension (group_median self1) (max_tail_length self1));
    [reflexivity|].
  unfold cells_bounded in Hb.
  induction Hperm as [|g1 g2 rows1 rows2 Hg _ IH]; [reflexivity|].
  inversion Hb as [|? ? Hbg Hb']; subst. simpl.
  rewrite (group_median_permuted self1 self2 g1 g2 H1 H2 Hg Hbg).
  now rewrite (IH Hb').
Qed.

(** The order of the groups does matter: the mean is a sum of floats taken
    in group order.  With the medians [2 ** 0 / phi], [2 ** 0 / phi] and
    [2 ** 48 / phi] the estimate is 121297710743087, with the last two
    exchanged it is 121297710743088. *)
Lemma estimate_depends_on_group_order :
  estimate_cardinality (three_groups 0 0 48) = Ok 121297710743087 /\
  estimate_cardinality (three_groups 0 48 0) = Ok 121297710743088.
Proof. vm_compute. split; reflexivity. Qed.

End GroupedOrder.

(** X23 on two matrices of two groups whose rows hold the same cells in
    another order. *)
Lemma estimate_ignores_order_within_groups_witness :
  let self1 := grid [[0; 1]; [3; 2]]%nat in
  let self2 := grid [[1; 0]; [2; 3]]%nat in
  FlajoletMartinMultiple.phi self1 = Globals.phi /\
  FlajoletMartinMultiple.phi self2 = Globals.phi /\
  Forall2 (@Permutation nat) (FlajoletMartinMultiple.max_tail_length self1)
    (FlajoletMartinMultiple.max_tail_length self2) /\
  cells_bounded (FlajoletMartinMultiple.max_tail_length self1) /\
  FlajoletMartinMultiple.estimate_cardinality self1
  = FlajoletMartinMultiple.estimate_cardinality self2.
Proof.
  intros self1 self2.
  assert (H1 : FlajoletMartinMultiple.phi self1 = Globals.phi) by reflexivity.
  assert (H2 : FlajoletMartinMultiple.phi self2 = Globals.phi) by reflexivity.
  assert (Hp : Forall2 (@Permutation nat)
                 (FlajoletMartinMultiple.max_tail_length self1)
                 (FlajoletMartinMultiple.max_tail_length self2)).
  { apply List.Forall2_cons; [apply perm_swap|].
    apply List.Forall2_cons; [apply perm_swap|]. apply List.Forall2_nil. }
  assert (Hb : cells_bounded (FlajoletMartinMultiple.max_tail_length self1)).
  { unfold cells_bounded, max_exponent. simpl.
    apply List.Forall_cons;
      [apply List.Forall_cons; [lia|];
       apply List.Forall_cons; [lia | apply List.Forall_nil]|].
    apply List.Forall_cons;
      [apply List.Forall_cons; [lia|];
       apply List.Forall_cons; [lia | apply List.Forall_nil]|].
    apply List.Forall_nil. }
  split; [exact H1|]. split; [exact H2|]. split; [exact Hp|]. split; [exact Hb|].
  exact (estimate_ignores_order_within_groups self1 self2 H1 H2 Hp Hb).
Defined.

(** * The seeded hash of the earlier revision *)

Section SeedPrefix.

Lemma uint_no_dash (d : Decimal.uint) : no_dash (NilEmpty.string_of_uint d).
Proof. induction d; simpl; try split; try discriminate; auto. Qed.

Lemma nilzero_no_dash (d : Decimal.uint) : no_dash (NilZero.string_of_uint d).
Proof.
  destruct d; try apply uint_no_dash. simpl. split; [discriminate | exact I].
Qed.

Lemma nilzero_nonempty (d : Decimal.uint) :
  exists c s, NilZero.string_of_uint d = String c s.
Proof. destruct d; simpl; eauto. Qed.

Lemma to_int_proper (n : Z) :
  Z.to_int n <> Decimal.Pos Decimal.Nil /\ Z.to_int n <> Decimal.Neg Decimal.Nil.
Proof.
  destruct n as [|p|p]; simpl; split; try discriminate;
    intros [= H]; now apply (DecimalPos.Unsigned.to_uint_nonnil p).
Qed.

(** [str] is injective: the digits determine the number. *)
Lemma str_inj (a b : Z) : str a = str b -> a = b.
Proof.
  unfold str. intros H.
  destruct (to_int_proper a) as [Ha1 Ha2], (to_int_proper b) as [Hb1 Hb2].
  pose proof (NilZero.isi (Z.to_int a) Ha1 Ha2) as Ea.
  pose proof (NilZero.isi (Z.to_int b) Hb1 Hb2) as Eb.
  rewrite H, Eb in Ea. injection Ea as Ea.
  rewrite <- (DecimalZ.of_to a), <- (DecimalZ.of_to b). now rewrite Ea.
Qed.

Lemma split_at_dash (s1 s2 v1 v2 : string) :
  no_dash s1 -> no_dash s2 ->
  (s1 ++ "-" ++ v1 = s2 ++ "-" ++ v2)%string ->
  s1 = s2 /\ v1 = v2.
Proof.
  revert s2. induction s1 as [|c1 s1 IH]; intros [|c2 s2] H1 H2; simpl in *.
  - intros [= ->]. auto.
  - intros [= <- _]. now destruct H2 as [[] _].
  - intros [= -> _]. now destruct H1 as [[] _].
  - intros [= -> E]. destruct (IH s2 (proj2 H1) (proj2 H2) E) as [-> ->]. auto.
Qed.

(** X24: the seed prefix keeps hash inputs apart.  The string
    [f"{seed}-{value}"] that the earlier revision hashes determines both
    the seed and the value: two different pairs of an integer seed and a
    value never give the same input to SHA-256. *)
Theorem seed_prefix_injective (seed1 seed2 : Z) (value1 value2 : string) :
  (str seed1 ++ "-" ++ value1 = str seed2 ++ "-" ++ value2)%string ->
  seed1 = seed2 /\ value1 = value2.
Proof.
  intros H.
  assert (Hstr : str seed1 = str seed2 /\ value1 = value2).
  { unfold str in *.
    destruct (Z.to_int seed1) as [d1|d1], (Z.to_int seed2) as [d2|d2];
      simpl in H.
    - apply split_at_dash; [apply nilzero_no_dash | apply nilzero_no_dash | exact H].
    - destruct (nilzero_nonempty d1) as (c & s & E).
      pose proof (nilzero_no_dash d1) as Hd. rewrite E in H, Hd.
      simpl in H, Hd. injection H as -> _. now destruct Hd as [[] _].
    - destruct (nilzero_nonempty d2) as (c & s & E).
      pose proof (nilzero_no_dash d2) as Hd. rewrite E in H, Hd.
      simpl in H, Hd. injection H as <- _. now destruct Hd as [[] _].
    - injection H as H.
      destruct (split_at_dash _ _ _ _ (nilzero_no_dash d1) (nilzero_no_dash d2) H)
        as [E ->].
      simpl. now rewrite E. }
  destruct Hstr as [Hs ->]. split; [now apply str_inj | reflexivity].
Qed.

End SeedPrefix.

(** X24 on the seed 42 and the value ["ab"]. *)
Lemma seed_prefix_injective_witness :
  (str 42 ++ "-" ++ "ab" = str 42 ++ "-" ++ "ab")%string /\
  42 = 42 /\ "ab"%string = "ab"%string.
Proof.
  assert (H : (str 42 ++ "-" ++ "ab" = str 42 ++ "-" ++ "ab")%string)
    by reflexivity.
  split; [exact H|].
  exact (seed_prefix_injective 42 42 "ab"%string "ab"%string H).
Defined.


Section EarlierCells.

Variable sha256 : string -> Z.
Variable randint : nat -> Z.

Import FlajoletMartinMultiple.

(** X25: in the earlier revision a cell is a simple sketch of prefixed
    values.  With [_hash(value, seed) = sha256(f"{seed}-{value}")], cell [i]
    of group [g] of a constructed instance holds, after any stream, the
    maximum tail length that a [FlajoletMartinSimple] holds after the
    stream of the strings [f"{seed}-{value}"], [seed] being the draw at
    slot [g * hashes_per_group + i]. *)
Theorem earlier_cell_is_simple_sketch_of_prefixed_values (n k : Z)
    (stream : list string) (g i : nat) :
  (g < Z.to_nat n)%nat ->
  (i < Z.to_nat k)%nat ->
  let seed := randint (g * Z.to_nat k + i)%nat in
  exists row,
    max_tail_length
      (snd (process_all (CountDistinctEarlier._hash sha256) stream
              (__init__ randint n k))) !! g = Some row /\
    row !! i
    = Some (FlajoletMartinSimple.max_tail_length
              (FlajoletMartinSimple.process_all sha256
                 FlajoletMartinSimple.__init__
                 ((fun value => str seed ++ "-" ++ value)%string <$> stream))).
Proof.
  intros Hg Hi seed.
  destruct (grouped_cell_running_max (CountDistinctEarlier._hash sha256)
              randint n k stream g i Hg Hi) as (row & Hrow & Hcell).
  exists row. split; [exact Hrow|]. rewrite Hcell. f_equal.
  rewrite simple_process_all_max, running_max_fmap. reflexivity.
Qed.

End EarlierCells.

(** X25 on one group of two hashes, for its second cell. *)
Lemma earlier_cell_is_simple_sketch_of_prefixed_values_witness :
  let stream := ["a"; "bb"]%string in
  (0 < Z.to_nat 1)%nat /\
  (1 < Z.to_nat 2)%nat /\
  let seed := Reference.randint (0 * Z.to_nat 2 + 1)%nat in
  exists row,
    FlajoletMartinMultiple.max_tail_length
      (snd (FlajoletMartinMultiple.process_all
              (CountDistinctEarlier._hash Reference.sha256) stream
              (FlajoletMartinMultiple.__init__ Reference.randint 1 2)))
      !! 0%nat = Some row /\
    row !! 1%nat
    = Some (FlajoletMartinSimple.max_tail_length
              (FlajoletMartinSimple.process_all Reference.sha256
                 FlajoletMartinSimple.__init__
                 ((fun value => str seed ++ "-" ++ value)%string <$> stream))).
Proof.
  intros stream.
  assert (Hg : (0 < Z.to_nat 1)%nat) by (simpl; lia).
  assert (Hi : (1 < Z.to_nat 2)%nat) by (simpl; lia).
  split; [exact Hg|]. split; [exact Hi|].
  exact (earlier_cell_is_simple_sketch_of_prefixed_values Reference.sha256
           Reference.randint 1 2 stream 0 1 Hg Hi).
Defined.

(** * The hash value of [FlajoletMartinSimple] *)

Section HexDigest.

Lemma hex_digit_range (c : ascii) (d : Z) : hex_digit c = Some d -> 0 <= d < 16.
Proof.
  unfold hex_digit.
  repeat match goal with
         | |- context [if ?b then _ else _] => destruct b eqn:?
         end; intros [= <-]; lia.
Qed.

Lemma int16_from_bounds (s : string) (acc : Z) :
  hex_string s ->
  exists v,
    int16_from acc s = Some v /\
    16 ^ Z.of_nat (String.length s) * acc <= v
    < 16 ^ Z.of_nat (String.length s) * (acc + 1).
Proof.
  revert acc. induction s as [|c s IH]; intros acc Hs.
  - exists acc. simpl. split; [reflexivity | lia].
  - destruct Hs as [Hc Hs]. cbn [int16_from].
    destruct (hex_digit c) as [d|] eqn:E; [|contradiction].
    destruct (IH (16 * acc + d) Hs) as (v & Hv & Hlo & Hhi).
    exists v. split; [exact Hv|].
    pose proof (hex_digit_range c d E) as Hd.
    cbn [String.length]. rewrite Nat2Z.inj_succ, Z.pow_succ_r by lia.
    assert (0 < 16 ^ Z.of_nat (String.length s)) by (apply Z.pow_pos_nonneg; lia).
    nia.
Qed.

(** X26: the hash value is a 256-bit number.  [int(hash_value, 16)] on a
    digest of 64 hexadecimal digits, as [hexdigest] of SHA-256 returns it,
    is a number in [[0, 2 ** 256)]. *)
Theorem hexdigest_value_is_256_bits (digest : string) :
  String.length digest = 64%nat ->
  hex_string digest ->
  exists h, int16 digest = Some h /\ 0 <= h < 2 ^ 256.
Proof.
  intros Hlen Hhex.
  destruct (int16_from_bounds digest 0 Hhex) as (v & Hv & Hlo & Hhi).
  exists v. split.
  - destruct digest; [discriminate | exact Hv].
  - rewrite Hlen in Hlo, Hhi. change (16 ^ Z.of_nat 64) with (2 ^ 256) in *. lia.
Qed.

End HexDigest.

(** X26 on the SHA-256 digest of the string ["a"]. *)
Lemma hexdigest_value_is_256_bits_witness :
  String.length digest_of_a = 64%nat /\
  hex_string digest_of_a /\
  exists h, int16 digest_of_a = Some h /\ 0 <= h < 2 ^ 256.
Proof.
  assert (Hl : String.length digest_of_a = 64%nat) by reflexivity.
  assert (Hh : hex_string digest_of_a)
    by (unfold digest_of_a; simpl; repeat split; discriminate).
  split; [exact Hl|]. split; [exact Hh|].
  exact (hexdigest_value_is_256_bits digest_of_a Hl Hh).
Defined.
